(** * Session orchestration core of the voice assistant server

    A shallow embedding of three classes of the server:

    - [CacheService] (the Redis adapter: key/value and list primitives with
      the [connected] guard of every method),
    - [SessionManager] (session registry, history ledger, recording capture),
    - [GeminiLiveService] (the per-session [responding] flag around the call
      to the text model).

    Conventions of the embedding.
    - Redis is one key space [gmap string RedisVal]; a value is either a
      string written with an expiry (the JSON of a session or of a recording)
      or a list of JSON strings (history entries).  [JSON.stringify] followed
      by [JSON.parse] is the identity on the records below, whose optional
      fields are [option]s; the expiry given to [setEx] is stored with the
      value, the passing of time on the Redis side is not modelled.
    - A command sent to a key of the wrong type raises in the client, is
      caught by the method's [try/catch] and gives the method's degraded
      result.
    - Session objects live in a heap and the [activeSessions] map holds
      references, as the JS [Map] does: two keys may hold the same object.
    - [Date.now()] and [uuidv4()] are oracles: the n-th call returns
      [clock n], respectively [uuids n].
    - An [async] method of the cache service or of the session manager is
      run to completion as one step: the connection state does not change
      inside a method and no other method runs between its [await]s.
      [sendAudioChunk], which awaits the model, is split at its [await]. *)

From Stdlib Require Import ZArith Lia.
From stdpp Require Import gmap strings list fin_maps.

(** ** JavaScript operators used by the code *)

Module JS.

(** [x || d] for a string that may be [undefined]: [undefined] and the
    empty string are falsy. *)
Definition or_string (x : option string) (d : string) : string :=
  match x with
  | Some s => if decide (s = "") then d else s
  | None => d
  end.

Definition truthy_string (x : option string) : bool :=
  match x with
  | Some s => if decide (s = "") then false else true
  | None => false
  end.

(** [x || d] for a boolean that may be [undefined]. *)
Definition or_bool (x : option bool) (d : bool) : bool :=
  match x with
  | Some true => true
  | _ => d
  end.

(** [l.slice(start)] for an integer [start]: a negative [start] counts from
    the end, and the start index is clamped to [0 .. length]. *)
Definition slice {A} (start : Z) (l : list A) : list A :=
  let len := Z.of_nat (length l) in
  let k := if (start <? 0)%Z then Z.max (len + start) 0 else Z.min start len in
  drop (Z.to_nat k) l.

(** [a - b] on numbers that may be [undefined]; [None] is [NaN]. *)
Definition sub (a b : option Z) : option Z :=
  match a, b with
  | Some x, Some y => Some (x - y)%Z
  | _, _ => None
  end.

End JS.

(** ** Data model *)

Module HistoryEntry.
Record t := mk {
  id : string;
  timestamp : Z;
  userInput : string;
  aiResponse : string;
  language : string;
  voice : string;
  audioUrl : option string;
  duration : option Z
}.
End HistoryEntry.

(** The [entry] argument of [addToHistory], as the caller builds it. *)
Module EntryInput.
Record t := mk {
  timestamp : option Z;
  userInput : string;
  aiResponse : string;
  language : option string;
  voice : option string;
  audioUrl : option string;
  duration : option Z
}.
End EntryInput.

Module Settings.
Record t := mk {
  autoTranslate : bool;
  voiceEnabled : bool;
  subtitleEnabled : bool
}.
End Settings.

(** One element of [recording.data]: [{ timestamp, data }]. *)
Module RawPoint.
Record t := mk { timestamp : Z; data : string }.
End RawPoint.

Module Session.
Record t := mk {
  id : string;
  createdAt : Z;
  lastActivity : Z;
  participants : list string;
  language : string;
  voice : string;
  history : list HistoryEntry.t;
  isRecording : bool;
  recordingData : list RawPoint.t;
  settings : Settings.t;
  recordingStartTime : option Z;
  recordingEndTime : option Z;
  recordingDuration : option Z;
  recordings : option (list string)
}.

Definition with_participants (v : list string) (s : t) : t :=
  mk (id s) (createdAt s) (lastActivity s) v (language s) (voice s)
     (history s) (isRecording s) (recordingData s) (settings s)
     (recordingStartTime s) (recordingEndTime s) (recordingDuration s)
     (recordings s).

Definition with_lastActivity (v : Z) (s : t) : t :=
  mk (id s) (createdAt s) v (participants s) (language s) (voice s)
     (history s) (isRecording s) (recordingData s) (settings s)
     (recordingStartTime s) (recordingEndTime s) (recordingDuration s)
     (recordings s).

Definition with_language (v : string) (s : t) : t :=
  mk (id s) (createdAt s) (lastActivity s) (participants s) v (voice s)
     (history s) (isRecording s) (recordingData s) (settings s)
     (recordingStartTime s) (recordingEndTime s) (recordingDuration s)
     (recordings s).

Definition with_voice (v : string) (s : t) : t :=
  mk (id s) (createdAt s) (lastActivity s) (participants s) (language s) v
     (history s) (isRecording s) (recordingData s) (settings s)
     (recordingStartTime s) (recordingEndTime s) (recordingDuration s)
     (recordings s).

Definition with_history (v : list HistoryEntry.t) (s : t) : t :=
  mk (id s) (createdAt s) (lastActivity s) (participants s) (language s)
     (voice s) v (isRecording s) (recordingData s) (settings s)
     (recordingStartTime s) (recordingEndTime s) (recordingDuration s)
     (recordings s).

Definition with_isRecording (v : bool) (s : t) : t :=
  mk (id s) (createdAt s) (lastActivity s) (participants s) (language s)
     (voice s) (history s) v (recordingData s) (settings s)
     (recordingStartTime s) (recordingEndTime s) (recordingDuration s)
     (recordings s).

Definition with_recordingData (v : list RawPoint.t) (s : t) : t :=
  mk (id s) (createdAt s) (lastActivity s) (participants s) (language s)
     (voice s) (history s) (isRecording s) v (settings s)
     (recordingStartTime s) (recordingEndTime s) (recordingDuration s)
     (recordings s).

Definition with_recordingStartTime (v : option Z) (s : t) : t :=
  mk (id s) (createdAt s) (lastActivity s) (participants s) (language s)
     (voice s) (history s) (isRecording s) (recordingData s) (settings s)
     v (recordingEndTime s) (recordingDuration s) (recordings s).

Definition with_recordingEndTime (v : option Z) (s : t) : t :=
  mk (id s) (createdAt s) (lastActivity s) (participants s) (language s)
     (voice s) (history s) (isRecording s) (recordingData s) (settings s)
     (recordingStartTime s) v (recordingDuration s) (recordings s).

Definition with_recordingDuration (v : option Z) (s : t) : t :=
  mk (id s) (createdAt s) (lastActivity s) (participants s) (language s)
     (voice s) (history s) (isRecording s) (recordingData s) (settings s)
     (recordingStartTime s) (recordingEndTime s) v (recordings s).

Definition with_recordings (v : option (list string)) (s : t) : t :=
  mk (id s) (createdAt s) (lastActivity s) (participants s) (language s)
     (voice s) (history s) (isRecording s) (recordingData s) (settings s)
     (recordingStartTime s) (recordingEndTime s) (recordingDuration s) v.
End Session.

(** The object built by [stopRecording]. *)
Module Recording.
Record t := mk {
  id : string;
  sessionId : string;
  startTime : option Z;
  endTime : option Z;
  duration : option Z;
  data : list RawPoint.t;
  history : list HistoryEntry.t
}.
End Recording.

(** ** CacheService *)

Inductive Stored :=
| StoredSession (s : Session.t)
| StoredRecording (r : Recording.t).

Inductive RedisVal :=
| RString (v : Stored) (ttl : Z)
| RList (l : list HistoryEntry.t).

(** [LRANGE]/[LTRIM] index arithmetic: negative indices count from the end,
    the range is clamped to the list and is inclusive on both sides. *)
Definition redis_range {A} (start stop : Z) (l : list A) : list A :=
  let len := Z.of_nat (length l) in
  let s := Z.max 0 (if (start <? 0)%Z then start + len else start)%Z in
  let e := Z.min (len - 1) (if (stop <? 0)%Z then stop + len else stop)%Z in
  if (e <? s)%Z then [] else take (Z.to_nat (e - s + 1)) (drop (Z.to_nat s) l).

Module CacheService.

Record t := mk {
  connected : bool;
  client : gmap string RedisVal
}.

Definition with_client (m : gmap string RedisVal) (c : t) : t :=
  mk (connected c) m.

Definition get (key : string) (c : t) : option Stored :=
  if negb (connected c) then None
  else match client c !! key with
       | Some (RString v _) => Some v
       | Some (RList _) => None
       | None => None
       end.

Definition set (key : string) (value : Stored) (ttl : Z) (c : t) : bool * t :=
  if negb (connected c) then (false, c)
  else (true, with_client (<[key := RString value ttl]> (client c)) c).

Definition del (key : string) (c : t) : bool * t :=
  if negb (connected c) then (false, c)
  else (true, with_client (delete key (client c)) c).

Definition lpush (key : string) (value : HistoryEntry.t) (c : t) : bool * t :=
  if negb (connected c) then (false, c)
  else match client c !! key with
       | Some (RList l) => (true, with_client (<[key := RList (value :: l)]> (client c)) c)
       | Some (RString _ _) => (false, c)
       | None => (true, with_client (<[key := RList [value]]> (client c)) c)
       end.

Definition lrange (key : string) (start stop : Z) (c : t) : list HistoryEntry.t :=
  if negb (connected c) then []
  else match client c !! key with
       | Some (RList l) => redis_range start stop l
       | Some (RString _ _) => []
       | None => []
       end.

Definition ltrim (key : string) (start stop : Z) (c : t) : bool * t :=
  if negb (connected c) then (false, c)
  else match client c !! key with
       | Some (RList l) =>
           match redis_range start stop l with
           | [] => (true, with_client (delete key (client c)) c)
           | l' => (true, with_client (<[key := RList l']> (client c)) c)
           end
       | Some (RString _ _) => (false, c)
       | None => (true, c)
       end.

(** Session-specific methods.  A [session:] key only ever receives a
    session (the one writer is [setSession]); another shape under such a
    key reads as absent. *)
Definition getSession (sessionId : string) (c : t) : option Session.t :=
  match get ("session:" +:+ sessionId) c with
  | Some (StoredSession s) => Some s
  | _ => None
  end.

Definition setSession (sessionId : string) (sessionData : Session.t) (c : t)
  : bool * t :=
  set ("session:" +:+ sessionId) (StoredSession sessionData) 3600 c.

Definition deleteSession (sessionId : string) (c : t) : bool * t :=
  del ("session:" +:+ sessionId) c.

Definition getSessionHistory (sessionId : string) (c : t) : list HistoryEntry.t :=
  lrange ("history:" +:+ sessionId) 0 (-1) c.

Definition addToSessionHistory (sessionId : string) (entry : HistoryEntry.t)
    (c : t) : bool * t :=
  let '(success, c1) := lpush ("history:" +:+ sessionId) entry c in
  if success then
    (* Keep only last 100 entries *)
    let '(_, c2) := ltrim ("history:" +:+ sessionId) 0 99 c1 in
    (success, c2)
  else (success, c1).

(** The history key holds a list, or nothing. *)
Definition history_ok (sessionId : string) (c : t) : Prop :=
  ∀ v ttl, client c !! ("history:" +:+ sessionId) ≠ Some (RString v ttl).

(** The stored history after a sequence of appends, oldest append first. *)
Definition appends (sessionId : string) (es : list HistoryEntry.t) (c : t) : t :=
  foldl (fun c e => snd (addToSessionHistory sessionId e c)) c es.

End CacheService.

(** ** SessionManager *)

(** Result of a method: a returned value or a thrown [Error]. *)
Inductive Res (A : Type) :=
| Ok (a : A)
| Throw (msg : string).
Arguments Ok {A} a.
Arguments Throw {A} msg.

(** The [options] argument of [createSession] and [joinSession]. *)
Module Options.
Record t := mk {
  language : option string;
  voice : option string;
  autoTranslate : option bool;
  voiceEnabled : option bool;
  subtitleEnabled : option bool
}.
Definition empty : t := mk None None None None None.
End Options.

(** The [updates] argument of [updateSession]: the own properties of the
    object that [Object.assign] copies onto the session. *)
Module Updates.
Record t := mk {
  id : option string;
  createdAt : option Z;
  lastActivity : option Z;
  participants : option (list string);
  language : option string;
  voice : option string;
  history : option (list HistoryEntry.t);
  isRecording : option bool;
  recordingData : option (list RawPoint.t);
  settings : option Settings.t;
  recordingStartTime : option Z;
  recordingEndTime : option Z;
  recordingDuration : option Z;
  recordings : option (list string)
}.

Definition empty : t :=
  mk None None None None None None None None None None None None None None.

Definition assign (s : Session.t) (u : t) : Session.t :=
  Session.mk
    (default (Session.id s) (id u))
    (default (Session.createdAt s) (createdAt u))
    (default (Session.lastActivity s) (lastActivity u))
    (default (Session.participants s) (participants u))
    (default (Session.language s) (language u))
    (default (Session.voice s) (voice u))
    (default (Session.history s) (history u))
    (default (Session.isRecording s) (isRecording u))
    (default (Session.recordingData s) (recordingData u))
    (default (Session.settings s) (settings u))
    (match recordingStartTime u with Some v => Some v | None => Session.recordingStartTime s end)
    (match recordingEndTime u with Some v => Some v | None => Session.recordingEndTime s end)
    (match recordingDuration u with Some v => Some v | None => Session.recordingDuration s end)
    (match recordings u with Some v => Some v | None => Session.recordings s end).
End Updates.

(** The two oracles and the process environment. *)
Module Env.
Record t := mk {
  clock : nat -> Z;
  ticks : nat;
  uuids : nat -> string;
  drawn : nat;
  DEFAULT_LANGUAGE : option string;
  DEFAULT_VOICE : option string
}.
End Env.

Module SessionManager.

(** A value of the [recordingSessions] map: [{ startTime, data }]. *)
Record RecState := mkRec {
  startTime : option Z;
  data : list RawPoint.t
}.

(** The manager, its cache service, the heap of session objects its maps
    refer to, and the environment. *)
Record t := mk {
  cacheService : CacheService.t;
  heap : gmap nat Session.t;
  nextRef : nat;
  activeSessions : gmap string nat;
  recordingSessions : gmap string RecState;
  env : Env.t
}.

Definition with_cacheService (c : CacheService.t) (w : t) : t :=
  mk c (heap w) (nextRef w) (activeSessions w) (recordingSessions w) (env w).
Definition with_heap (h : gmap nat Session.t) (n : nat) (w : t) : t :=
  mk (cacheService w) h n (activeSessions w) (recordingSessions w) (env w).
Definition with_activeSessions (a : gmap string nat) (w : t) : t :=
  mk (cacheService w) (heap w) (nextRef w) a (recordingSessions w) (env w).
Definition with_recordingSessions (r : gmap string RecState) (w : t) : t :=
  mk (cacheService w) (heap w) (nextRef w) (activeSessions w) r (env w).
Definition with_env (e : Env.t) (w : t) : t :=
  mk (cacheService w) (heap w) (nextRef w) (activeSessions w)
     (recordingSessions w) e.

(** *** The monad of methods: state and thrown errors *)

Definition M (A : Type) : Type := t -> Res A * t.

Definition ret {A} (a : A) : M A := fun w => (Ok a, w).
Definition throw {A} (msg : string) : M A := fun w => (Throw msg, w).
Definition bind {A B} (c : M A) (k : A -> M B) : M B :=
  fun w => match c w with
           | (Ok a, w') => k a w'
           | (Throw msg, w') => (Throw msg, w')
           end.

Notation "'let*' x ':=' c 'in' k" := (bind c (fun x => k))
  (at level 10, x name, c at level 100, k at level 200).
Notation "'do' c 'then' k" := (bind c (fun _ => k))
  (at level 10, c at level 100, k at level 200).

(** [Date.now()] *)
Definition Date_now : M Z := fun w =>
  let e := env w in
  (Ok (Env.clock e (Env.ticks e)),
   with_env (Env.mk (Env.clock e) (S (Env.ticks e)) (Env.uuids e)
                    (Env.drawn e) (Env.DEFAULT_LANGUAGE e)
                    (Env.DEFAULT_VOICE e)) w).

(** [uuidv4()] *)
Definition uuidv4 : M string := fun w =>
  let e := env w in
  (Ok (Env.uuids e (Env.drawn e)),
   with_env (Env.mk (Env.clock e) (Env.ticks e) (Env.uuids e)
                    (S (Env.drawn e)) (Env.DEFAULT_LANGUAGE e)
                    (Env.DEFAULT_VOICE e)) w).

Definition getenv {A} (f : Env.t -> A) : M A := fun w => (Ok (f (env w)), w).

(** A call [await this.cacheService.m(...)]. *)
Definition cache_call {A} (f : CacheService.t -> A * CacheService.t) : M A :=
  fun w => let '(a, c) := f (cacheService w) in (Ok a, with_cacheService c w).
Definition cache_read {A} (f : CacheService.t -> A) : M A :=
  fun w => (Ok (f (cacheService w)), w).

(** Session objects.  [new_object] is an object literal or the result of
    [JSON.parse]; [read_object] reads the fields of a reference;
    [update_object] is a sequence of assignments [session.f = v]. *)
Definition new_object (s : Session.t) : M nat := fun w =>
  (Ok (nextRef w), with_heap (<[nextRef w := s]> (heap w)) (S (nextRef w)) w).
Definition read_object (r : nat) : M Session.t := fun w =>
  match heap w !! r with
  | Some s => (Ok s, w)
  | None => (Throw "TypeError", w)
  end.
Definition update_object (r : nat) (f : Session.t -> Session.t) : M unit :=
  fun w =>
    match heap w !! r with
    | Some s => (Ok tt, with_heap (<[r := f s]> (heap w)) (nextRef w) w)
    | None => (Throw "TypeError", w)
    end.

Definition activeSessions_get (sessionId : string) : M (option nat) :=
  fun w => (Ok (activeSessions w !! sessionId), w).
Definition activeSessions_set (sessionId : string) (r : nat) : M unit :=
  fun w => (Ok tt, with_activeSessions (<[sessionId := r]> (activeSessions w)) w).
Definition activeSessions_delete (sessionId : string) : M unit :=
  fun w => (Ok tt, with_activeSessions (delete sessionId (activeSessions w)) w).

Definition recordingSessions_get (sessionId : string) : M (option RecState) :=
  fun w => (Ok (recordingSessions w !! sessionId), w).
Definition recordingSessions_set (sessionId : string) (v : RecState) : M unit :=
  fun w => (Ok tt, with_recordingSessions (<[sessionId := v]> (recordingSessions w)) w).
Definition recordingSessions_delete (sessionId : string) : M unit :=
  fun w => (Ok tt, with_recordingSessions (delete sessionId (recordingSessions w)) w).

(** [await this.cacheService.setSession(sessionId, session)]: the object is
    serialised as it is at the call. *)
Definition cacheService_setSession (sessionId : string) (r : nat) : M bool :=
  let* s := read_object r in
  cache_call (CacheService.setSession sessionId s).

(** [await this.cacheService.getSession(sessionId)]: a hit is a freshly
    parsed object. *)
Definition cacheService_getSession (sessionId : string) : M (option nat) :=
  let* o := cache_read (CacheService.getSession sessionId) in
  match o with
  | Some s => let* r := new_object s in ret (Some r)
  | None => ret None
  end.

(** *** Methods *)

Definition createSession (options : Options.t) : M nat :=
  let* sessionId := uuidv4 in
  let* createdAt := Date_now in
  let* lastActivity := Date_now in
  let* DEFAULT_LANGUAGE := getenv Env.DEFAULT_LANGUAGE in
  let* DEFAULT_VOICE := getenv Env.DEFAULT_VOICE in
  let* session := new_object
    (Session.mk sessionId createdAt lastActivity []
       (JS.or_string (Options.language options)
                     (JS.or_string DEFAULT_LANGUAGE "en"))
       (JS.or_string (Options.voice options)
                     (JS.or_string DEFAULT_VOICE "male"))
       [] false []
       (Settings.mk (JS.or_bool (Options.autoTranslate options) false)
                    (JS.or_bool (Options.voiceEnabled options) true)
                    (JS.or_bool (Options.subtitleEnabled options) true))
       None None None None) in
  do cacheService_setSession sessionId session then
  do activeSessions_set sessionId session then
  ret session.

Definition joinSession (sessionId participantId : string)
    (options : Options.t) : M nat :=
  let* found := cacheService_getSession sessionId in
  let* session := match found with
                  | Some r => ret r
                  | None => createSession options
                  end in
  (* Update session with new participant *)
  let* s := read_object session in
  do (if bool_decide (participantId ∈ Session.participants s) then ret tt
      else update_object session
             (fun s => Session.with_participants
                         (Session.participants s ++ [participantId]) s)) then
  (* Update options if provided *)
  do (match Options.language options with
      | Some l => if decide (l = "") then ret tt
                  else update_object session (Session.with_language l)
      | None => ret tt
      end) then
  do (match Options.voice options with
      | Some v => if decide (v = "") then ret tt
                  else update_object session (Session.with_voice v)
      | None => ret tt
      end) then
  let* now := Date_now in
  do update_object session (Session.with_lastActivity now) then
  let* h := cache_read (CacheService.getSessionHistory sessionId) in
  do update_object session (Session.with_history h) then
  do cacheService_setSession sessionId session then
  do activeSessions_set sessionId session then
  ret session.

Definition leaveSession (sessionId participantId : string) : M unit :=
  let* found := cacheService_getSession sessionId in
  match found with
  | Some session =>
      do update_object session
           (fun s => Session.with_participants
                       (filter (fun id => id ≠ participantId)
                               (Session.participants s)) s) then
      let* now := Date_now in
      do update_object session (Session.with_lastActivity now) then
      let* s := read_object session in
      if (length (Session.participants s) =? 0)%nat then
        (* No more participants, cleanup session *)
        do cache_call (CacheService.deleteSession sessionId) then
        do activeSessions_delete sessionId then
        recordingSessions_delete sessionId
      else
        do cacheService_setSession sessionId session then
        activeSessions_set sessionId session
  | None => ret tt
  end.

Definition getSession (sessionId : string) : M (option nat) :=
  let* session := activeSessions_get sessionId in
  match session with
  | Some r => ret (Some r)
  | None =>
      let* session := cacheService_getSession sessionId in
      match session with
      | Some r => do activeSessions_set sessionId r then ret (Some r)
      | None => ret None
      end
  end.

Definition updateSession (sessionId : string) (updates : Updates.t) : M nat :=
  let* found := getSession sessionId in
  match found with
  | Some session =>
      do update_object session (fun s => Updates.assign s updates) then
      let* now := Date_now in
      do update_object session (Session.with_lastActivity now) then
      do cacheService_setSession sessionId session then
      do activeSessions_set sessionId session then
      ret session
  | None => throw "Session not found"
  end.

Definition addToHistory (sessionId : string) (entry : EntryInput.t)
  : M HistoryEntry.t :=
  let* found := getSession sessionId in
  match found with
  | Some session =>
      let* id := uuidv4 in
      let* timestamp := match EntryInput.timestamp entry with
                        | Some v => if (v =? 0)%Z then Date_now else ret v
                        | None => Date_now
                        end in
      let* s := read_object session in
      let historyEntry :=
        HistoryEntry.mk id timestamp
          (EntryInput.userInput entry) (EntryInput.aiResponse entry)
          (JS.or_string (EntryInput.language entry) (Session.language s))
          (JS.or_string (EntryInput.voice entry) (Session.voice s))
          (EntryInput.audioUrl entry) (EntryInput.duration entry) in
      do cache_call (CacheService.addToSessionHistory sessionId historyEntry) then
      (* Update session history in memory *)
      let* h := cache_read (CacheService.getSessionHistory sessionId) in
      do update_object session (Session.with_history h) then
      let* now := Date_now in
      do update_object session (Session.with_lastActivity now) then
      do cacheService_setSession sessionId session then
      do activeSessions_set sessionId session then
      ret historyEntry
  | None => throw "Session not found"
  end.

(** [limit] is [None] when the argument is omitted (default 50). *)
Definition getSessionHistory (sessionId : string) (limit : option Z)
  : M (list HistoryEntry.t) :=
  let limit := default 50%Z limit in
  let* history := cache_read (CacheService.getSessionHistory sessionId) in
  ret (JS.slice (- limit) history).

Definition startRecording (sessionId : string) : M nat :=
  let* found := getSession sessionId in
  match found with
  | Some session =>
      do update_object session (Session.with_isRecording true) then
      let* now := Date_now in
      do update_object session (Session.with_recordingStartTime (Some now)) then
      do update_object session (Session.with_recordingData []) then
      do cacheService_setSession sessionId session then
      do activeSessions_set sessionId session then
      let* s := read_object session in
      do recordingSessions_set sessionId
           (mkRec (Session.recordingStartTime s) []) then
      ret session
  | None => throw "Session not found"
  end.

Definition stopRecording (sessionId : string) : M Recording.t :=
  let* found := getSession sessionId in
  let* recording := recordingSessions_get sessionId in
  match found, recording with
  | Some session, Some recording =>
      do update_object session (Session.with_isRecording false) then
      let* now := Date_now in
      do update_object session (Session.with_recordingEndTime (Some now)) then
      do update_object session
           (fun s => Session.with_recordingDuration
                       (JS.sub (Session.recordingEndTime s)
                               (Session.recordingStartTime s)) s) then
      let* id := uuidv4 in
      let* s := read_object session in
      let recordingData :=
        Recording.mk id sessionId (startTime recording)
          (Session.recordingEndTime s) (Session.recordingDuration s)
          (data recording)
          (JS.slice (-20) (Session.history s)) (* Last 20 interactions *) in
      (* Store recording in cache, 24 hours *)
      do cache_call (CacheService.set ("recording:" +:+ id)
                       (StoredRecording recordingData) 86400) then
      do update_object session
           (fun s => Session.with_recordings
                       (Some (default [] (Session.recordings s) ++ [id])) s) then
      do cacheService_setSession sessionId session then
      do activeSessions_set sessionId session then
      do recordingSessions_delete sessionId then
      ret recordingData
  | _, _ => throw "Session or recording not found"
  end.

Definition addRecordingData (sessionId : string) (d : string) : M unit :=
  let* recording := recordingSessions_get sessionId in
  match recording with
  | Some recording =>
      let* now := Date_now in
      recordingSessions_set sessionId
        (mkRec (startTime recording)
               (data recording ++ [RawPoint.mk now d]))
  | None => ret tt
  end.

Definition getRecording (recordingId : string) : M (option Recording.t) :=
  let* v := cache_read (CacheService.get ("recording:" +:+ recordingId)) in
  match v with
  | Some (StoredRecording r) => ret (Some r)
  | _ => ret None
  end.

Fixpoint del_recordings (ids : list string) : M unit :=
  match ids with
  | [] => ret tt
  | recordingId :: rest =>
      do cache_call (CacheService.del ("recording:" +:+ recordingId)) then
      del_recordings rest
  end.

Definition deleteSession (sessionId : string) : M bool :=
  let* found := getSession sessionId in
  match found with
  | Some session =>
      let* s := read_object session in
      (* Clean up recordings *)
      do del_recordings (default [] (Session.recordings s)) then
      (* Clean up session data *)
      do cache_call (CacheService.deleteSession sessionId) then
      do cache_call (CacheService.del ("history:" +:+ sessionId)) then
      do activeSessions_delete sessionId then
      do recordingSessions_delete sessionId then
      ret true
  | None => ret false
  end.

(** The raw data points of a recording, in order of arrival. *)
Fixpoint addRecordingData_all (sessionId : string) (ds : list string)
  : M unit :=
  match ds with
  | [] => ret tt
  | d :: ds =>
      do addRecordingData sessionId d then addRecordingData_all sessionId ds
  end.

(** A recording is open on the session: the session is in memory, it and
    the [recordingSessions] entry carry the start time [t0], and [n] raw
    data points have been accumulated. *)
Definition recording_open (sessionId : string) (t0 : Z) (n : nat) (w : t)
  : Prop :=
  ∃ r s d,
    activeSessions w !! sessionId = Some r ∧ heap w !! r = Some s ∧
    Session.recordingStartTime s = Some t0 ∧
    recordingSessions w !! sessionId = Some (mkRec (Some t0) d) ∧
    length d = n.

(** The mutating operations on one session. *)
Inductive Op :=
| Join (participantId : string) (options : Options.t)
| Leave (participantId : string)
| Update (updates : Updates.t)
| Append (entry : EntryInput.t)
| StartRecording
| StopRecording.

Definition run_op (sessionId : string) (op : Op) : M unit :=
  match op with
  | Join participantId options =>
      do joinSession sessionId participantId options then ret tt
  | Leave participantId => leaveSession sessionId participantId
  | Update updates => do updateSession sessionId updates then ret tt
  | Append entry => do addToHistory sessionId entry then ret tt
  | StartRecording => do startRecording sessionId then ret tt
  | StopRecording => do stopRecording sessionId then ret tt
  end.

(** The operations whose body assigns [session.lastActivity]. *)
Definition refreshes (op : Op) : bool :=
  match op with
  | StartRecording | StopRecording => false
  | _ => true
  end.

(** [lastActivity] of the session as [getSession] finds it in memory. *)
Definition lastActivity_of (sessionId : string) (w : t) : option Z :=
  match activeSessions w !! sessionId with
  | Some r => Session.lastActivity <$> heap w !! r
  | None => None
  end.

(** The session an operation returned, read from the heap. *)
Definition returned_session (p : Res nat * t) : option Session.t :=
  match p with
  | (Ok r, w) => heap w !! r
  | (Throw _, _) => None
  end.

End SessionManager.

(** ** GeminiLiveService *)

(** [sendAudioChunk] is the one method that suspends on a long call
    ([await this.geminiService.getResponse(...)]).  It is embedded as two
    atomic steps of the event loop: [sendAudioChunk] runs the method up to the
    [await] and registers the outstanding call; [getResponse_returns] runs
    the rest (the body after the [await] and the [finally] block) when the
    call resolves or rejects.  Between the two any other step may run.  The
    [session] argument is read after the [await] too; the model reads the
    fields [id], [language] and [voice] as they were at the call. *)

Module GeminiLiveService.

Record LiveSession := mkLive {
  id : string;
  systemInstruction : string;
  responding : bool
}.

(** What the service emits, in order. *)
Inductive Emitted :=
| session_opened (sessionId : string)
| session_closed (sessionId : string)
| interrupted (sessionId : string)
| response (sessionId text : string) (audio : option string)
           (language voice : string).

(** An outstanding call [getResponse(mockTranscript, session)]. *)
Record Call := mkCall {
  mockTranscript : string;
  session : Session.t
}.

(** How an outstanding call ends. *)
Inductive Outcome :=
| Resolved (text : string) (audio : option string)
| Rejected.

Record t := mk {
  sessions : gmap string LiveSession;
  outstanding : list Call;
  emitted : list Emitted
}.

Definition init : t := mk ∅ [] [].

Definition emit (e : Emitted) (g : t) : t :=
  mk (sessions g) (outstanding g) (emitted g ++ [e]).

Definition openSession (sessionId : string) (systemInstruction : option string)
    (g : t) : t :=
  emit (session_opened sessionId)
    (mk (<[sessionId := mkLive sessionId (JS.or_string systemInstruction "") false]>
           (sessions g))
        (outstanding g) (emitted g)).

Definition closeSession (sessionId : string) (g : t) : t :=
  emit (session_closed sessionId)
    (mk (delete sessionId (sessions g)) (outstanding g) (emitted g)).

(** Barge-in: mark current response as interrupted. *)
Definition interrupt (sessionId : string) (g : t) : t :=
  match sessions g !! sessionId with
  | Some s =>
      emit (interrupted sessionId)
        (mk (<[sessionId := mkLive (id s) (systemInstruction s) false]> (sessions g))
            (outstanding g) (emitted g))
  | None => g
  end.

(** [sendAudioChunk] up to its [await]. *)
Definition sendAudioChunk (session : Session.t) (base64Chunk : string)
    (g : t) : t :=
  match sessions g !! Session.id session with
  | None => g
  | Some s =>
      if responding s then g (* avoid spamming *)
      else mk (<[Session.id session := mkLive (id s) (systemInstruction s) true]>
                 (sessions g))
              (outstanding g ++ [mkCall "..." session])
              (emitted g)
  end.

(** The [finally] block. *)
Definition sendAudioChunk_finally (session : Session.t) (g : t) : t :=
  match sessions g !! Session.id session with
  | Some curr =>
      mk (<[Session.id session := mkLive (id curr) (systemInstruction curr) false]>
            (sessions g))
         (outstanding g) (emitted g)
  | None => g
  end.

(** [sendAudioChunk] from the return of the awaited call on. *)
Definition sendAudioChunk_resume (c : Call) (o : Outcome) (g : t) : t :=
  let session := session c in
  let g' :=
    match o with
    | Resolved text audio =>
        match sessions g !! Session.id session with
        | None => g (* session closed *)
        | Some _ =>
            emit (response (Session.id session) text audio
                           (Session.language session) (Session.voice session)) g
        end
    | Rejected => g
    end in
  sendAudioChunk_finally session g'.

(** The [k]-th outstanding call returns. *)
Definition getResponse_returns (k : nat) (o : Outcome) (g : t) : t :=
  match outstanding g !! k with
  | Some c =>
      sendAudioChunk_resume c o
        (mk (sessions g) (delete k (outstanding g)) (emitted g))
  | None => g
  end.

(** Steps of the event loop on the service, and runs. *)
Inductive Step :=
| Open (sessionId : string) (systemInstruction : option string)
| Close (sessionId : string)
| Interrupt (sessionId : string)
| Audio (session : Session.t) (base64Chunk : string)
| Returns (k : nat) (o : Outcome).

Definition step (g : t) (e : Step) : t :=
  match e with
  | Open sessionId i => openSession sessionId i g
  | Close sessionId => closeSession sessionId g
  | Interrupt sessionId => interrupt sessionId g
  | Audio session chunk => sendAudioChunk session chunk g
  | Returns k o => getResponse_returns k o g
  end.

Definition run (g : t) (es : list Step) : t := foldl step g es.

(** Calls to the responder outstanding for one session. *)
Definition calls_of (sessionId : string) (cs : list Call) : list Call :=
  filter (fun c => Session.id (session c) = sessionId) cs.

Definition in_flight (sessionId : string) (g : t) : nat :=
  length (calls_of sessionId (outstanding g)).

(** The session is observable as [Responding]. *)
Definition is_responding (sessionId : string) (g : t) : bool :=
  match sessions g !! sessionId with
  | Some s => responding s
  | None => false
  end.

(** A step that clears the flag of [sessionId] without ending a call:
    [interrupt], and [openSession], which installs a new state. *)
Definition resets (sessionId : string) (e : Step) : bool :=
  match e with
  | Interrupt s => bool_decide (s = sessionId)
  | Open s _ => bool_decide (s = sessionId)
  | _ => false
  end.

(** No call outstanding, or exactly one and the flag, if the session is
    open, is set. *)
Definition guarded (sessionId : string) (g : t) : Prop :=
  in_flight sessionId g = 0 ∨
  (in_flight sessionId g = 1 ∧
   ∀ s, sessions g !! sessionId = Some s → responding s = true).

End GeminiLiveService.

(** ** Sample values used by the examples *)

Module Samples.

Definition alice : Session.t :=
  Session.mk "s1" 0 0 ["p1"] "en" "male" [] false []
    (Settings.mk false true true) None None None None.

Definition clock (n : nat) : Z := 1000 + Z.of_nat n.

Definition uuids (n : nat) : string :=
  match n with
  | 0 => "uuid-0"
  | 1 => "uuid-1"
  | 2 => "uuid-2"
  | 3 => "uuid-3"
  | _ => "uuid-4"
  end.

Definition env : Env.t := Env.mk clock 0 uuids 0 None None.

(** A fresh process, with Redis connected or not. *)
Definition fresh (connected : bool) : SessionManager.t :=
  SessionManager.mk (CacheService.mk connected ∅) ∅ 0 ∅ ∅ env.

Definition entry (text : string) : EntryInput.t :=
  EntryInput.mk None text "ok" None None None None.

Import SessionManager.

(** A session created with language "en" (it gets the id "uuid-0"), two
    participants, three history entries, and a read of the last two. *)
Definition read_two_of_three : M (list HistoryEntry.t) :=
  do createSession (Options.mk (Some "en") None None None None) then
  do joinSession "uuid-0" "p1" Options.empty then
  do joinSession "uuid-0" "p2" Options.empty then
  do addToHistory "uuid-0" (entry "one") then
  do addToHistory "uuid-0" (entry "two") then
  do addToHistory "uuid-0" (entry "three") then
  getSessionHistory "uuid-0" (Some 2%Z).

(** The only participant of a session with one history entry leaves; then
    the session and its history are read. *)
Definition last_participant_leaves
  : M (option nat * list HistoryEntry.t) :=
  do createSession Options.empty then
  do joinSession "uuid-0" "p1" Options.empty then
  do addToHistory "uuid-0" (entry "one") then
  do leaveSession "uuid-0" "p1" then
  let* session := getSession "uuid-0" in
  let* history := getSessionHistory "uuid-0" None in
  ret (session, history).

(** A recording is started, receives one raw data point, and is started
    again. *)
Definition start_twice : M nat :=
  do createSession Options.empty then
  do startRecording "uuid-0" then
  do addRecordingData "uuid-0" "chunk" then
  startRecording "uuid-0".

(** The update sent when the user switches to French. *)
Definition to_french : Updates.t :=
  Updates.mk None None None None (Some "fr") None None None None None None
             None None None.

(** A session that one participant has joined: in memory and in Redis. *)
Definition joined (connected : bool) : SessionManager.t :=
  snd ((do createSession Options.empty then
        joinSession "uuid-0" "p1" Options.empty) (fresh connected)).

(** A recording in progress with one raw data point. *)
Definition recording : SessionManager.t :=
  snd ((do startRecording "uuid-0" then
        addRecordingData "uuid-0" "chunk") (joined true)).

End Samples.

(** ** CacheService.cleanupOldSessions *)

Module CacheSweep.
Import CacheService.

(** [s.replace(pat, rep)] with a string pattern: the first occurrence of
    [pat] is replaced, a string without one is returned as it is. *)
Definition replace (pat rep s : string) : string :=
  match String.index 0 pat s with
  | Some i =>
      String.substring 0 i s +:+ rep
      +:+ String.substring (i + String.length pat)
            (String.length s - (i + String.length pat)) s
  | None => s
  end.

(** [KEYS session:*]: the keys that start with [session:].  Redis returns
    them in no particular order; the model takes the order of the map. *)
Definition keys_session (c : t) : list string :=
  filter (fun key => String.prefix "session:" key = true)
         (map_to_list (client c)).*1.

(** The body of the loop, for one key. *)
Definition cleanup_key (now : Z) (c : t) (key : string) : t :=
  match get key c with
  | Some (StoredSession session) =>
      if (24 * 60 * 60 * 1000 <? now - Session.lastActivity session)%Z then
        let c1 := (del key c).2 in
        let sessionId := replace "session:" "" key in
        (del ("history:" +:+ sessionId) c1).2
      else c
  | _ => c
  end.

(** [now] is the reading of [Date.now()] taken before the loop. *)
Definition cleanupOldSessions (now : Z) (c : t) : t :=
  if negb (connected c) then c
  else foldl (cleanup_key now) c (keys_session c).

(** The session stored under [session:<sessionId>] is older than a day. *)
Definition stale (now : Z) (sessionId : string) (c : t) : Prop :=
  ∃ s ttl,
    client c !! ("session:" +:+ sessionId) = Some (RString (StoredSession s) ttl) ∧
    (24 * 60 * 60 * 1000 < now - Session.lastActivity s)%Z.

(** A key of the form [session:<id>]. *)
Definition prefixed (key : string) : Prop := ∃ x, key = "session:" +:+ x.

End CacheSweep.

(** ** States of the session manager used in the statements *)

Module ManagerState.
Import SessionManager.

(** A recording is open on the session and has received the payloads [ps],
    in this order. *)
Definition recording_data (sessionId : string) (t0 : Z) (ps : list string)
    (w : t) : Prop :=
  ∃ r s d,
    activeSessions w !! sessionId = Some r ∧ heap w !! r = Some s ∧
    Session.recordingStartTime s = Some t0 ∧
    recordingSessions w !! sessionId = Some (mkRec (Some t0) d) ∧
    map RawPoint.data d = ps.

(** The store after the loop of [deleteSession] over the recording ids. *)
Definition without_recordings (ids : list string) (m : gmap string RedisVal)
  : gmap string RedisVal :=
  foldl (fun m id => delete ("recording:" +:+ id) m) m ids.

End ManagerState.

(** ** SessionManager.cleanupInactiveSessions *)

Module SessionSweep.
Import SessionManager.

(** The loop over the entries of [activeSessions].  A JS [Map] is iterated
    in insertion order, which the finite map does not record: the loop is
    defined for a list of entries, and the method runs it on the map's own
    enumeration.  [leaveSession] touches the entry of its own key only, so
    the entries met by the live iteration are those of the list. *)
Fixpoint cleanup_loop (now : Z) (entries : list (string * nat)) : M unit :=
  match entries with
  | [] => ret tt
  | (sessionId, session) :: rest =>
      let* s := read_object session in
      do (if (30 * 60 * 1000 <? now - Session.lastActivity s)%Z
          then leaveSession sessionId "system"
          else ret tt) then
      cleanup_loop now rest
  end.

Definition cleanupInactiveSessions : M unit :=
  let* now := Date_now in
  let* entries := (fun w => (Ok (map_to_list (activeSessions w)), w)) in
  cleanup_loop now entries.

(** Redis holds the session with [participantId] among its participants. *)
Definition stored_with (sessionId participantId : string) (w : t) : Prop :=
  ∃ s ttl,
    CacheService.client (cacheService w) !! ("session:" +:+ sessionId)
    = Some (RString (StoredSession s) ttl) ∧
    participantId ∈ Session.participants s.

End SessionSweep.

(** ** The socket handlers of the server *)

(** The handlers of [io.on('connection', ...)], which call the session
    manager and the live service.  A connection has its [socket.id], the
    closure variable [currentSession] (a reference to a session object, or
    [null]) and what was emitted to the socket.  A handler is one step; the
    [audio-stream] handler is taken up to the [await] inside
    [sendAudioChunk], whose continuation is
    [GeminiLiveService.getResponse_returns]. *)

Module Server.

Inductive Sent :=
| session_joined (sessionId language voice : string)
                 (history : list HistoryEntry.t)
| error (message : string)
| interrupted
| language_changed (language : string)
| voice_changed (voice : string)
| recording_started
| recording_stopped (recording : Recording.t).

Record Socket := mkSocket {
  id : string;
  currentSession : option nat;
  sent : list Sent
}.

Record t := mk {
  sessionManager : SessionManager.t;
  geminiLive : GeminiLiveService.t
}.

Definition connect (id : string) : Socket := mkSocket id None [].

Definition emit (e : Sent) (socket : Socket) : Socket :=
  mkSocket (id socket) (currentSession socket) (sent socket ++ [e]).

Definition systemInstruction : string :=
  "You are Rev, the voice assistant for Revolt Motors. Only discuss Revolt Motors products, services, and related topics.".

(** [socket.on('join-session', ...)].  The defaults of the destructuring
    apply to an absent [language] or [voice]. *)
Definition on_join_session (sessionId : string) (language voice : option string)
    (socket : Socket) (srv : t) : Socket * t :=
  let language := default "en" language in
  let voice := default "male" voice in
  match SessionManager.joinSession sessionId (id socket)
          (Options.mk (Some language) (Some voice) None None None)
          (sessionManager srv) with
  | (Ok session, m) =>
      let g := GeminiLiveService.openSession sessionId (Some systemInstruction)
                 (geminiLive srv) in
      match SessionManager.read_object session m with
      | (Ok s, m') =>
          (emit (session_joined sessionId language voice (Session.history s))
                (mkSocket (id socket) (Some session) (sent socket)),
           mk m' g)
      | (Throw message, m') =>
          (emit (error message)
                (mkSocket (id socket) (Some session) (sent socket)),
           mk m' g)
      end
  | (Throw message, m) =>
      (emit (error message) socket, mk m (geminiLive srv))
  end.

(** [socket.on('audio-stream', ...)], up to the [await] of the model. *)
Definition on_audio_stream (audioData : string) (socket : Socket) (srv : t)
  : Socket * t :=
  match currentSession socket with
  | None => (emit (error "No active session") socket, srv)
  | Some session =>
      match SessionManager.read_object session (sessionManager srv) with
      | (Ok s, m) =>
          (socket,
           mk m (GeminiLiveService.sendAudioChunk s audioData (geminiLive srv)))
      | (Throw _, m) =>
          (emit (error "Error processing audio") socket, mk m (geminiLive srv))
      end
  end.

(** [socket.on('interrupt', ...)] *)
Definition on_interrupt (socket : Socket) (srv : t) : Socket * t :=
  match currentSession socket with
  | None => (socket, srv)
  | Some session =>
      match SessionManager.read_object session (sessionManager srv) with
      | (Ok s, m) =>
          (emit interrupted socket,
           mk m (GeminiLiveService.interrupt (Session.id s) (geminiLive srv)))
      | (Throw _, m) => (socket, mk m (geminiLive srv))
      end
  end.

(** [socket.on('change-language', ...)] *)
Definition on_change_language (language : string) (socket : Socket) (srv : t)
  : Socket * t :=
  match currentSession socket with
  | None => (socket, srv)
  | Some session =>
      let update :=
        SessionManager.bind
          (SessionManager.update_object session (Session.with_language language))
          (fun _ =>
        SessionManager.bind (SessionManager.read_object session) (fun s =>
        SessionManager.updateSession (Session.id s)
          (Updates.mk None None None None (Some language) None None None None
                      None None None None None))) in
      match update (sessionManager srv) with
      | (Ok _, m) => (emit (language_changed language) socket, mk m (geminiLive srv))
      | (Throw message, m) => (emit (error message) socket, mk m (geminiLive srv))
      end
  end.

(** [socket.on('disconnect', ...)] *)
Definition on_disconnect (socket : Socket) (srv : t) : Socket * t :=
  match currentSession socket with
  | None => (socket, srv)
  | Some session =>
      match SessionManager.read_object session (sessionManager srv) with
      | (Ok s, m) =>
          let g := GeminiLiveService.closeSession (Session.id s) (geminiLive srv) in
          let '(_, m') := SessionManager.leaveSession (Session.id s) (id socket) m in
          (socket, mk m' g)
      | (Throw _, m) => (socket, mk m (geminiLive srv))
      end
  end.

End Server.

(** ** Counting on runs of the live service *)

Module LiveTrace.
Import GeminiLiveService.

Definition is_response (e : Emitted) : bool :=
  match e with
  | response _ _ _ _ _ => true
  | _ => false
  end.

(** [response] events emitted so far. *)
Definition responses (g : t) : nat :=
  length (filter (fun e => is_response e = true) (emitted g)).

Definition is_audio (e : Step) : bool :=
  match e with
  | Audio _ _ => true
  | _ => false
  end.

(** Audio chunks received in a run. *)
Definition chunks (es : list Step) : nat :=
  length (filter (fun e => is_audio e = true) es).

(** Every live session is stored under its own id. *)
Definition keyed (g : t) : Prop :=
  ∀ k s, sessions g !! k = Some s → id s = k.

(** A session whose flag is set has a call outstanding. *)
Definition busy_has_call (g : t) : Prop :=
  ∀ sid s, sessions g !! sid = Some s → responding s = true →
           1 ≤ in_flight sid g.

End LiveTrace.

(** ** Further sample values *)

Module Scenarios.
Import SessionManager.

(** A session created through [createSession] (id "uuid-0") in a process
    with Redis connected. *)
Definition created : SessionManager.t :=
  snd (createSession Options.empty (Samples.fresh true)).

(** The session of [created], as Redis holds it. *)
Definition created_session : Session.t :=
  Session.mk "uuid-0" 1000 1001 [] "en" "male" [] false []
    (Settings.mk false true true) None None None None.

(** The session of [Samples.joined true], as object 1 holds it. *)
Definition joined_session : Session.t :=
  Session.mk "uuid-0" 1000 1002 ["p1"] "en" "male" [] false []
    (Settings.mk false true true) None None None None.

Definition server (m : SessionManager.t) : Server.t :=
  Server.mk m GeminiLiveService.init.

End Scenarios.

(** * Properties *)

(** ** GeminiLiveService: the [responding] guard *)

Module Live.
Import GeminiLiveService.

Lemma calls_of_app sid (l1 l2 : list Call) :
  calls_of sid (l1 ++ l2) = calls_of sid l1 ++ calls_of sid l2.
Proof. unfold calls_of. apply filter_app. Qed.

Lemma calls_of_cons sid c (l : list Call) :
  calls_of sid (c :: l) =
  if decide (Session.id (session c) = sid) then c :: calls_of sid l
  else calls_of sid l.
Proof. unfold calls_of. by rewrite filter_cons. Qed.

(** Removing an outstanding call changes the count of its own session by
    one and leaves the others. *)
Lemma calls_of_delete sid (l : list Call) k c :
  l !! k = Some c →
  length (calls_of sid l) =
  (if decide (Session.id (session c) = sid) then 1 else 0)
  + length (calls_of sid (delete k l)).
Proof.
  intros Hk.
  rewrite <- (take_drop_middle l k c Hk) at 1.
  rewrite delete_take_drop, !calls_of_app, !length_app, calls_of_cons.
  destruct (decide (Session.id (session c) = sid)); simpl; lia.
Qed.

Lemma guarded_step sid g e :
  resets sid e = false → guarded sid g → guarded sid (step g e).
Proof.
  intros Hr Hg. destruct e as [s i|s|s|sess chunk|k o]; simpl in *.
  - (* openSession of another session *)
    apply bool_decide_eq_false in Hr.
    destruct Hg as [H0|[H1 Hs]]; [left; exact H0|right; split; [exact H1|]].
    intros s'. simpl. rewrite lookup_insert_ne by done. apply Hs.
  - (* closeSession *)
    destruct Hg as [H0|[H1 Hs]]; [left; exact H0|right; split; [exact H1|]].
    intros s'. simpl. intros Hl. apply lookup_delete_Some in Hl as [_ Hl].
    eauto.
  - (* interrupt of another session *)
    apply bool_decide_eq_false in Hr. unfold interrupt.
    destruct (sessions g !! s) as [ls|]; [|exact Hg].
    destruct Hg as [H0|[H1 Hs]]; [left; exact H0|right; split; [exact H1|]].
    intros s'. simpl. rewrite lookup_insert_ne by done. apply Hs.
  - (* sendAudioChunk *)
    unfold sendAudioChunk.
    destruct (sessions g !! Session.id sess) as [ls|] eqn:Hl; [|exact Hg].
    destruct (responding ls) eqn:Hresp; [exact Hg|].
    destruct (decide (Session.id sess = sid)) as [Heq|Hne].
    + destruct Hg as [H0|[_ Hs]].
      * right. unfold in_flight in *. simpl. split.
        -- rewrite calls_of_app, length_app, H0, calls_of_cons. simpl.
           rewrite decide_True by done. done.
        -- intros s'. rewrite Heq, lookup_insert_eq. by intros [= <-].
      * rewrite Heq in Hl. rewrite (Hs _ Hl) in Hresp. discriminate.
    + assert (in_flight sid
                (mk (<[Session.id sess := mkLive (id ls) (systemInstruction ls) true]>
                       (sessions g))
                    (outstanding g ++ [mkCall "..." sess]) (emitted g))
              = in_flight sid g) as Hsame.
      { unfold in_flight. simpl.
        rewrite calls_of_app, length_app, calls_of_cons. simpl.
        rewrite decide_False by done. simpl. lia. }
      destruct Hg as [H0|[H1 Hs]].
      * left. by rewrite Hsame.
      * right. rewrite Hsame. split; [done|].
        intros s'. simpl. rewrite lookup_insert_ne by done. apply Hs.
  - (* the awaited call returns *)
    unfold getResponse_returns.
    destruct (outstanding g !! k) as [c|] eqn:Hk; [|exact Hg].
    pose proof (calls_of_delete sid _ _ _ Hk) as Hcount.
    set (g0 := mk (sessions g) (delete k (outstanding g)) (emitted g)).
    assert (∀ g1, in_flight sid (sendAudioChunk_finally (session c) g1)
                  = in_flight sid g1) as Hfin.
    { intros g1. unfold sendAudioChunk_finally.
      by destruct (sessions g1 !! _). }
    assert (in_flight sid (sendAudioChunk_resume c o g0)
            = length (calls_of sid (delete k (outstanding g)))) as Hin.
    { unfold sendAudioChunk_resume. rewrite Hfin.
      destruct o as [text audio|]; [|done].
      by destruct (sessions g0 !! _). }
    destruct (decide (Session.id (session c) = sid)) as [Heq|Hne].
    + left. rewrite Hin.
      destruct Hg as [H0|[H1 _]]; unfold in_flight in *; lia.
    + assert (∀ s', sessions (sendAudioChunk_resume c o g0) !! sid = Some s'
                    → sessions g !! sid = Some s') as Hsess.
      { intros s'. unfold sendAudioChunk_resume, sendAudioChunk_finally.
        destruct o as [text audio|]; simpl.
        - destruct (sessions g !! Session.id (session c)); simpl.
          + destruct (sessions g !! Session.id (session c)); simpl;
              rewrite ?lookup_insert_ne by done; done.
          + destruct (sessions g !! Session.id (session c)); simpl;
              rewrite ?lookup_insert_ne by done; done.
        - destruct (sessions g !! Session.id (session c)); simpl;
            rewrite ?lookup_insert_ne by done; done. }
      destruct Hg as [H0|[H1 Hs]]; unfold guarded; rewrite Hin;
        unfold in_flight in *; simpl in Hcount.
      * left. lia.
      * right. split; [lia|]. intros s' Hl. apply Hs, Hsess, Hl.
Qed.

Lemma guarded_run sid es : ∀ g,
  Forall (fun e => resets sid e = false) es →
  guarded sid g → guarded sid (run g es).
Proof.
  induction es as [|e es IH]; intros g Hes Hg; [exact Hg|].
  inversion Hes; subst. simpl. apply IH; [done|].
  by apply guarded_step.
Qed.

Lemma guarded_in_flight sid g : guarded sid g → in_flight sid g ≤ 1.
Proof. intros [H|[H _]]; lia. Qed.

(** A chunk that arrives while the flag is set changes nothing: no call,
    no event. *)
Lemma sendAudioChunk_while_responding session chunk g :
  is_responding (Session.id session) g = true →
  sendAudioChunk session chunk g = g.
Proof.
  unfold is_responding, sendAudioChunk.
  destruct (sessions g !! Session.id session) as [s|]; [|done].
  by intros ->.
Qed.


(** C1 (as amended).  Between two resets of a session's flag ([interrupt] or a
    new [openSession]) at most one call to the responder is outstanding for
    the session, whatever chunks arrive and whatever calls return, and a
    chunk that arrives while [responding] is set is dropped without a call. *)
Theorem single_flight_between_resets sid g es :
  guarded sid g →
  Forall (fun e => resets sid e = false) es →
  in_flight sid (run g es) ≤ 1 ∧
  ∀ session chunk,
    Session.id session = sid →
    is_responding sid (run g es) = true →
    sendAudioChunk session chunk (run g es) = run g es.
Proof.
  intros Hg Hes. split.
  - apply guarded_in_flight, guarded_run; assumption.
  - intros session chunk <- Hresp.
    by apply sendAudioChunk_while_responding.
Qed.

Lemma single_flight_between_resets_witness :
  in_flight "s1"
    (run (openSession "s1" None init)
         [Audio Samples.alice "a"; Audio Samples.alice "b";
          Returns 0 (Resolved "hi" None); Audio Samples.alice "c"]) ≤ 1.
Proof.
  refine (proj1 (single_flight_between_resets "s1" _ _ _ _)).
  - left. vm_compute. reflexivity.
  - repeat constructor.
Defined.

(** C1, counterexample: an [interrupt] clears the flag while the first call
    is still outstanding, and the next chunk starts a second call. *)
Lemma interrupt_then_chunk_two_in_flight :
  in_flight "s1"
    (run init [Open "s1" None; Audio Samples.alice "a"; Interrupt "s1";
               Audio Samples.alice "b"]) = 2.
Proof. vm_compute. reflexivity. Qed.

(** C2 (as amended).  [interrupt] on a responding session clears the flag at
    once and emits [interrupted]; when the interrupted call later resolves,
    its result is emitted as a [response] event if the session is still
    open, and is dropped only if the session has been closed meanwhile. *)
Theorem interrupt_clears_flag_late_result_emitted g sid k c text audio :
  is_responding sid g = true →
  outstanding g !! k = Some c →
  Session.id (session c) = sid →
  is_responding sid (interrupt sid g) = false ∧
  emitted (interrupt sid g) = emitted g ++ [interrupted sid] ∧
  emitted (getResponse_returns k (Resolved text audio) (interrupt sid g))
  = emitted (interrupt sid g)
    ++ [response sid text audio (Session.language (session c))
                 (Session.voice (session c))] ∧
  emitted (getResponse_returns k (Resolved text audio)
             (closeSession sid (interrupt sid g)))
  = emitted (closeSession sid (interrupt sid g)).
Proof.
  unfold is_responding, interrupt. intros Hresp Hk Hid.
  destruct (sessions g !! sid) as [s|] eqn:Hs; [|discriminate].
  repeat split.
  - simpl. by rewrite lookup_insert_eq.
  - unfold getResponse_returns. simpl. rewrite Hk.
    unfold sendAudioChunk_resume, sendAudioChunk_finally. simpl.
    rewrite Hid, lookup_insert_eq. simpl. by rewrite lookup_insert_eq.
  - unfold getResponse_returns, closeSession. simpl. rewrite Hk.
    unfold sendAudioChunk_resume, sendAudioChunk_finally. simpl.
    rewrite Hid, lookup_delete_eq. simpl. by rewrite lookup_delete_eq.
Qed.

Lemma interrupt_clears_flag_late_result_emitted_witness :
  let g := run init [Open "s1" None; Audio Samples.alice "a"] in
  is_responding "s1" (interrupt "s1" g) = false ∧
  emitted (interrupt "s1" g) = emitted g ++ [interrupted "s1"] ∧
  emitted (getResponse_returns 0 (Resolved "late" None) (interrupt "s1" g))
  = emitted (interrupt "s1" g) ++ [response "s1" "late" None "en" "male"] ∧
  emitted (getResponse_returns 0 (Resolved "late" None)
             (closeSession "s1" (interrupt "s1" g)))
  = emitted (closeSession "s1" (interrupt "s1" g)).
Proof.
  intros g.
  exact (interrupt_clears_flag_late_result_emitted g "s1" 0
           (mkCall "..." Samples.alice) "late" None
           eq_refl eq_refl eq_refl).
Defined.

(** C2, counterexample: the result of the interrupted call is emitted. *)
Lemma interrupted_result_is_emitted :
  emitted
    (run init [Open "s1" None; Audio Samples.alice "a"; Interrupt "s1";
               Returns 0 (Resolved "late" None)])
  = [session_opened "s1"; interrupted "s1";
     response "s1" "late" None "en" "male"].
Proof. vm_compute. reflexivity. Qed.

End Live.

(** ** CacheService: the history list *)

Module CacheFacts.

Lemma redis_range_all {A} (l : list A) : redis_range 0 (-1) l = l.
Proof.
  unfold redis_range. simpl.
  destruct l as [|x l]; [reflexivity|].
  set (len := Z.of_nat (length (x :: l))).
  assert (1 <= len)%Z by (subst len; rewrite length_cons; lia).
  rewrite Z.max_l by lia. rewrite Z.min_r by lia.
  destruct (Z.ltb_spec (-1 + len) 0); [lia|].
  replace (Z.to_nat (-1 + len - 0 + 1)) with (length (x :: l))
    by (subst len; lia).
  change (Z.to_nat 0) with 0%nat. rewrite drop_0. apply firstn_all.
Qed.

Lemma redis_range_0_99 {A} (l : list A) : redis_range 0 99 l = take 100 l.
Proof.
  unfold redis_range. simpl.
  destruct l as [|x l]; [reflexivity|].
  set (len := Z.of_nat (length (x :: l))).
  assert (1 <= len)%Z by (subst len; rewrite length_cons; lia).
  rewrite Z.max_l by lia.
  destruct (Z.ltb_spec (Z.min (len - 1) 99) 0); [lia|].
  change (Z.to_nat 0) with 0%nat. rewrite drop_0.
  destruct (Z.le_gt_cases len 100).
  - rewrite Z.min_l by lia.
    rewrite !take_ge; [reflexivity| |]; subst len; lia.
  - rewrite Z.min_r by lia. reflexivity.
Qed.

Import CacheService.

(** On a connected store, an append puts the entry in front and keeps the
    first hundred. *)
Lemma addToSessionHistory_connected sid e c :
  connected c = true →
  history_ok sid c →
  let c' := snd (addToSessionHistory sid e c) in
  fst (addToSessionHistory sid e c) = true ∧
  connected c' = true ∧
  history_ok sid c' ∧
  getSessionHistory sid c' = take 100 (e :: getSessionHistory sid c).
Proof.
  intros Hc Hok. destruct c as [conn m]. simpl in Hc. subst conn.
  unfold history_ok in *. simpl in Hok.
  unfold addToSessionHistory, getSessionHistory, lpush, ltrim, lrange.
  set (key := "history:" +:+ sid) in *. simpl.
  destruct (m !! key) as [[v ttl|l]|] eqn:Hm.
  - by destruct (Hok v ttl).
  - repeat (simpl; rewrite ?lookup_insert_eq, ?redis_range_0_99,
              ?redis_range_all).
    repeat split; done.
  - repeat (simpl; rewrite ?lookup_insert_eq, ?redis_range_0_99,
              ?redis_range_all).
    repeat split; done.
Qed.

Lemma getSessionHistory_length_appended sid e c :
  connected c = true →
  history_ok sid c →
  length (getSessionHistory sid (snd (addToSessionHistory sid e c))) ≤ 100.
Proof.
  intros Hc Hok.
  destruct (addToSessionHistory_connected sid e c Hc Hok) as (_ & _ & _ & ->).
  rewrite length_take. lia.
Qed.

Lemma take_app_take {A} n m (l1 l2 : list A) :
  n ≤ length l1 + m → take n (l1 ++ take m l2) = take n (l1 ++ l2).
Proof.
  intros Hn. rewrite !take_app, take_take. do 2 f_equal. lia.
Qed.

Lemma appends_connected sid es : ∀ c,
  connected c = true →
  history_ok sid c →
  length (getSessionHistory sid c) ≤ 100 →
  connected (appends sid es c) = true ∧
  history_ok sid (appends sid es c) ∧
  getSessionHistory sid (appends sid es c)
  = take 100 (rev es ++ getSessionHistory sid c).
Proof.
  induction es as [|e es IH]; intros c Hc Hok Hlen; simpl.
  - repeat split; try done. by rewrite take_ge.
  - destruct (addToSessionHistory_connected sid e c Hc Hok)
      as (_ & Hc' & Hok' & Hh).
    destruct (IH _ Hc' Hok') as (Hc2 & Hok2 & Hh2).
    { rewrite Hh, length_take. lia. }
    repeat split; try done.
    rewrite Hh2, Hh, take_app_take by lia.
    by rewrite <- app_assoc.
Qed.

(** The history of a session never exceeds 100 entries, and what is kept
    are the entries appended last, newest first. *)
Lemma appends_from_empty sid es c :
  connected c = true →
  client c !! ("history:" +:+ sid) = None →
  getSessionHistory sid (appends sid es c) = take 100 (rev es) ∧
  length (getSessionHistory sid (appends sid es c)) ≤ 100.
Proof.
  intros Hc Hnone.
  assert (getSessionHistory sid c = []) as Hempty.
  { unfold getSessionHistory, lrange. rewrite Hnone. by destruct (negb _). }
  destruct (appends_connected sid es c Hc) as (_ & _ & Hh).
  - intros v ttl. by rewrite Hnone.
  - rewrite Hempty. simpl. lia.
  - rewrite Hh, Hempty, app_nil_r. split; [done|].
    rewrite length_take. lia.
Qed.

(** [l.slice(-n)] for a positive [n] is the last [n] elements. *)
Lemma slice_negative {A} (n : Z) (l : list A) :
  (0 < n)%Z → JS.slice (- n) l = drop (length l - Z.to_nat n) l.
Proof.
  intros Hn. unfold JS.slice.
  destruct (Z.ltb_spec (- n) 0); [|lia].
  f_equal. lia.
Qed.

Lemma slice_nil {A} (start : Z) : JS.slice start (@nil A) = [].
Proof. unfold JS.slice. apply drop_nil. Qed.

Lemma slice_length_le {A} (start : Z) (l : list A) :
  length (JS.slice start l) ≤ length l.
Proof. unfold JS.slice. rewrite length_drop. lia. Qed.

Lemma slice_negative_length {A} (n : Z) (l : list A) :
  (0 < n)%Z → length (JS.slice (- n) l) ≤ Z.to_nat n.
Proof. intros Hn. rewrite slice_negative, length_drop by done. lia. Qed.

(** With a disconnected client every method returns its degraded result
    and leaves the store as it is. *)
Lemma disconnected_methods key v ttl e start stop c :
  connected c = false →
  get key c = None ∧ set key v ttl c = (false, c) ∧ del key c = (false, c) ∧
  lpush key e c = (false, c) ∧ lrange key start stop c = [] ∧
  ltrim key start stop c = (false, c).
Proof.
  intros Hc. unfold get, set, del, lpush, lrange, ltrim. by rewrite Hc.
Qed.

End CacheFacts.

(** ** SessionManager *)

Module ManagerFacts.
Import SessionManager.

(** Symbolic execution of a method on a state whose lookups are known. *)
Ltac unfold_methods :=
  unfold startRecording, stopRecording, getSession, updateSession,
    joinSession, leaveSession, createSession, addToHistory,
    getSessionHistory, addRecordingData, deleteSession, getRecording,
    cacheService_setSession, cacheService_getSession,
    activeSessions_get, activeSessions_set, activeSessions_delete,
    recordingSessions_get, recordingSessions_set, recordingSessions_delete,
    read_object, update_object, new_object, cache_call, cache_read, getenv,
    Date_now, uuidv4, bind, ret, throw.

Ltac exec :=
  unfold_methods;
  repeat (cbn -[String.append];
          rewrite ?lookup_insert_eq, ?lookup_delete_eq).

Ltac exec_cache :=
  unfold CacheService.getSession, CacheService.setSession,
    CacheService.deleteSession, CacheService.getSessionHistory,
    CacheService.addToSessionHistory,
    CacheService.get, CacheService.set, CacheService.del,
    CacheService.lpush, CacheService.lrange, CacheService.ltrim;
  repeat (cbn -[String.append];
          rewrite ?lookup_insert_eq, ?lookup_delete_eq).

Lemma or_bool_true x : JS.or_bool x true = true.
Proof. by destruct x as [[]|]. Qed.

Ltac exec_h :=
  unfold_methods;
  repeat (cbn -[String.append CacheService.addToSessionHistory
                CacheService.getSessionHistory];
          rewrite ?lookup_insert_eq, ?lookup_delete_eq).

Lemma history_key_ne_session a b : "history:" +:+ a ≠ "session:" +:+ b.
Proof. done. Qed.

(** *** Session creation *)

(** What [createSession] returns: the two output flags are [true] whatever
    the caller asked for. *)
Lemma createSession_settings options w :
  ∃ w' s,
    createSession options w = (Ok (nextRef w), w') ∧
    heap w' !! nextRef w = Some s ∧
    Session.id s = Env.uuids (env w) (Env.drawn (env w)) ∧
    Session.language s
    = JS.or_string (Options.language options)
        (JS.or_string (Env.DEFAULT_LANGUAGE (env w)) "en") ∧
    Session.voice s
    = JS.or_string (Options.voice options)
        (JS.or_string (Env.DEFAULT_VOICE (env w)) "male") ∧
    Session.settings s
    = Settings.mk (JS.or_bool (Options.autoTranslate options) false)
                  true true ∧
    activeSessions w' !! Session.id s = Some (nextRef w) ∧
    (CacheService.connected (cacheService w) = true →
     CacheService.getSession (Session.id s) (cacheService w') = Some s).
Proof.
  destruct w as [[conn m] h n a rs e].
  destruct conn; exec; exec_cache.
  all: eexists _, _; split; [reflexivity|]; exec.
  all: repeat split; exec; rewrite ?or_bool_true; try done.
  all: intros _; exec_cache; by rewrite ?or_bool_true.
Qed.

(** C8, at the failing input: the caller asks for [voiceEnabled: false] and
    [subtitleEnabled: false]; the session that is returned has both flags
    set. *)
Theorem createSession_ignores_disabled_flags :
  Session.settings
  <$> returned_session
        (createSession (Options.mk None None None (Some false) (Some false))
                       (Samples.fresh true))
  = Some (Settings.mk false true true).
Proof. vm_compute. reflexivity. Qed.

(** C10.  When Redis has no session under [sessionId] and the generated
    uuid is another string, [joinSession] creates a session whose [id] is
    the generated uuid, not [sessionId]; that one object is cached under
    [sessionId] (and, by [createSession], under its own id) and is written
    to Redis under [sessionId], where, Redis being connected, it is found. *)
Theorem joinSession_implicit_creation w sessionId participantId options :
  CacheService.getSession sessionId (cacheService w) = None →
  Env.uuids (env w) (Env.drawn (env w)) ≠ sessionId →
  ∃ r w' s,
    joinSession sessionId participantId options w = (Ok r, w') ∧
    heap w' !! r = Some s ∧
    Session.id s = Env.uuids (env w) (Env.drawn (env w)) ∧
    Session.id s ≠ sessionId ∧
    activeSessions w' !! sessionId = Some r ∧
    activeSessions w' !! Session.id s = Some r ∧
    (∃ s0, returned_session (createSession options w) = Some s0 ∧
           cacheService w'
           = (CacheService.setSession sessionId s
                (CacheService.setSession (Session.id s) s0 (cacheService w)).2).2) ∧
    (CacheService.connected (cacheService w) = true →
     CacheService.getSession sessionId (cacheService w') = Some s).
Proof.
  destruct w as [[conn m] h n a rs e]. cbn. intros Hnone Hne.
  unfold joinSession, cacheService_getSession, cache_read, bind. cbn.
  rewrite Hnone.
  destruct conn, options as [[l|] [v|] oa ov os]; exec; exec_cache;
    rewrite ?(bool_decide_eq_false_2 _ (not_elem_of_nil participantId));
    exec; repeat (case_decide; exec).
  all: eexists _, _, _; split; [reflexivity|].
  all: do 4 (split; [by exec|]).
  all: split; [exec; rewrite lookup_insert_ne by congruence;
               by rewrite lookup_insert_eq|].
  all: split; [eexists; split; [exec; exec_cache; reflexivity|by exec_cache]|].
  all: intros Hconn; try discriminate; by exec.
Qed.

Lemma joinSession_implicit_creation_witness :
  ∃ r w' s,
    joinSession "room-7" "p1" Options.empty (Samples.fresh true) = (Ok r, w') ∧
    heap w' !! r = Some s ∧
    Session.id s = "uuid-0" ∧
    Session.id s ≠ "room-7" ∧
    activeSessions w' !! "room-7" = Some r ∧
    CacheService.getSession "room-7" (cacheService w') = Some s.
Proof.
  destruct (joinSession_implicit_creation (Samples.fresh true) "room-7" "p1"
              Options.empty eq_refl)
    as (r & w' & s & Hrun & Hheap & Hid & Hne & Hmem & _ & _ & Hstore).
  - vm_compute. discriminate.
  - exists r, w', s. repeat split; try assumption. by apply Hstore.
Defined.

(** *** Leaving *)

(** When the last participant leaves, the session is removed from memory
    and from Redis, and so is the recording state; the history list is
    left as it is. *)
Lemma leaveSession_last w sid pid s0 :
  CacheService.getSession sid (cacheService w) = Some s0 →
  filter (fun id => id ≠ pid) (Session.participants s0) = [] →
  ∃ w',
    leaveSession sid pid w = (Ok tt, w') ∧
    fst (getSession sid w') = Ok None ∧
    recordingSessions w' !! sid = None ∧
    CacheService.getSessionHistory sid (cacheService w')
    = CacheService.getSessionHistory sid (cacheService w).
Proof.
  destruct w as [[conn m] h n a rs e]. cbn. intros Hs Hf.
  unfold leaveSession, cacheService_getSession, cache_read, bind. cbn.
  rewrite Hs. exec. rewrite Hf. cbn.
  assert (conn = true) as ->.
  { destruct conn; [done|]. by exec_cache. }
  exec_cache. eexists; split; [reflexivity|]. exec.
  rewrite lookup_delete_ne by (symmetry; apply history_key_ne_session).
  done.
Qed.

(** C4, at the failing input: the only participant leaves a session that
    has one history entry; afterwards [getSession] finds nothing, but the
    history read still returns the entry. *)
Theorem leaveSession_keeps_history :
  fst (Samples.last_participant_leaves (Samples.fresh true))
  = Ok (None, [HistoryEntry.mk "uuid-1" 1003 "one" "ok" "en" "male" None None]).
Proof. vm_compute. reflexivity. Qed.

(** The sibling path [deleteSession] does remove the history list. *)
Lemma deleteSession_removes_history w sid r s :
  activeSessions w !! sid = Some r →
  heap w !! r = Some s →
  Session.recordings s = None →
  CacheService.connected (cacheService w) = true →
  ∃ w',
    deleteSession sid w = (Ok true, w') ∧
    CacheService.getSessionHistory sid (cacheService w') = [].
Proof.
  destruct w as [[conn m] h n a rs e]. cbn. intros Ha Hh Hr ->.
  exec. rewrite Ha. exec. rewrite Hh. exec. rewrite Hr. exec. exec_cache.
  eexists; split; [reflexivity|]. by exec.
Qed.

(** *** History *)

(** What the read returns: the last [limit] elements of the stored list,
    which is newest first. *)
Lemma getSessionHistory_read sid limit w :
  getSessionHistory sid limit w
  = (Ok (JS.slice (- default 50%Z limit)
           (CacheService.getSessionHistory sid (cacheService w))), w).
Proof. reflexivity. Qed.

(** After appends to a fresh list, a read with a positive [limit] returns
    no more than [limit] and no more than 100 entries: the [limit] oldest
    of the entries retained, newest first. *)
Lemma read_after_appends sid es c limit :
  CacheService.connected c = true →
  CacheService.client c !! ("history:" +:+ sid) = None →
  (0 < limit)%Z →
  let stored := CacheService.getSessionHistory sid (CacheService.appends sid es c) in
  stored = take 100 (rev es) ∧
  JS.slice (- limit) stored = drop (length stored - Z.to_nat limit) stored ∧
  length (JS.slice (- limit) stored) ≤ 100 ∧
  length (JS.slice (- limit) stored) ≤ Z.to_nat limit.
Proof.
  intros Hc Hnone Hl stored.
  destruct (CacheFacts.appends_from_empty sid es c Hc Hnone) as [Hst Hlen].
  fold stored in Hst, Hlen.
  repeat split.
  - exact Hst.
  - by apply CacheFacts.slice_negative.
  - etrans; [apply CacheFacts.slice_length_le|exact Hlen].
  - by apply CacheFacts.slice_negative_length.
Qed.

(** C3, at the failing input: three entries are appended ("one", "two",
    "three", in this order) and two are read; the read returns "two" then
    "one": the two oldest, newest first. *)
Theorem read_two_of_three_returns_oldest_first_reversed :
  fst (Samples.read_two_of_three (Samples.fresh true))
  = Ok [HistoryEntry.mk "uuid-2" 1006 "two" "ok" "en" "male" None None;
        HistoryEntry.mk "uuid-1" 1004 "one" "ok" "en" "male" None None].
Proof. vm_compute. reflexivity. Qed.

(** C9.  With Redis disconnected, the list primitives and the two history
    methods of the cache return their degraded results and leave the store
    untouched, a history read of the manager returns the empty list, and an
    append to a session held in memory returns its entry without touching
    the store. *)
Theorem history_degrades_when_disconnected w sid limit entry e key start stop :
  CacheService.connected (cacheService w) = false →
  CacheService.lpush key e (cacheService w) = (false, cacheService w) ∧
  CacheService.lrange key start stop (cacheService w) = [] ∧
  CacheService.addToSessionHistory sid e (cacheService w)
  = (false, cacheService w) ∧
  CacheService.getSessionHistory sid (cacheService w) = [] ∧
  getSessionHistory sid limit w = (Ok [], w) ∧
  (is_Some (activeSessions w !! sid ≫= (heap w !!.)) →
   ∃ h w', addToHistory sid entry w = (Ok h, w') ∧
           cacheService w' = cacheService w).
Proof.
  destruct w as [[conn m] h n a rs en]. cbn. intros ->.
  repeat split.
  - unfold getSessionHistory, cache_read, bind, ret. cbn.
    by rewrite CacheFacts.slice_nil.
  - intros [s Hs].
    destruct (a !! sid) as [r|] eqn:Ha; [|discriminate]. cbn in Hs.
    exec. rewrite Ha. exec.
    destruct (EntryInput.timestamp entry) as [v|]; [destruct (v =? 0)%Z|];
      exec; rewrite Hs; exec; rewrite ?Hs; exec;
      eexists _, _; (split; [reflexivity|done]).
Qed.

Lemma history_degrades_when_disconnected_witness :
  getSessionHistory "uuid-0" (Some 5%Z) (Samples.joined false)
  = (Ok [], Samples.joined false) ∧
  ∃ h w', addToHistory "uuid-0" (Samples.entry "one") (Samples.joined false)
          = (Ok h, w') ∧
          cacheService w' = cacheService (Samples.joined false).
Proof.
  pose proof (history_degrades_when_disconnected (Samples.joined false)
                "uuid-0" (Some 5%Z) (Samples.entry "one")
                (HistoryEntry.mk "e" 0 "" "" "" "" None None)
                "history:uuid-0" 0%Z (-1)%Z eq_refl)
    as (_ & _ & _ & _ & Hread & Happend).
  split; [exact Hread|].
  apply Happend. eexists. vm_compute. reflexivity.
Defined.

(** *** Recording *)

Lemma startRecording_opens sid w r w1 :
  startRecording sid w = (Ok r, w1) →
  recording_open sid (Env.clock (env w) (Env.ticks (env w))) 0 w1 ∧
  CacheService.connected (cacheService w1)
  = CacheService.connected (cacheService w).
Proof.
  destruct w as [[conn m] h n a rs e].
  unfold startRecording, getSession, activeSessions_get, bind. cbn.
  destruct (a !! sid) as [r0|] eqn:Ha; cbn.
  - unfold update_object at 1. cbn.
    destruct (h !! r0) as [s|] eqn:Hh; [|discriminate].
    destruct conn; exec; exec_cache; intros [= <- <-].
    all: split; [|done].
    all: eexists _, _, _; exec; repeat split; try done.
    all: by rewrite lookup_insert_eq.
  - unfold cacheService_getSession, cache_read, bind. cbn.
    destruct (CacheService.getSession sid _) as [s0|] eqn:Hs; [|discriminate].
    destruct conn; exec; exec_cache; intros [= <- <-].
    all: split; [|done].
    all: eexists _, _, _; exec; repeat split; try done.
    all: by rewrite lookup_insert_eq.
Qed.

Lemma addRecordingData_open sid d t0 n w :
  recording_open sid t0 n w →
  ∃ w', addRecordingData sid d w = (Ok tt, w') ∧
        recording_open sid t0 (S n) w' ∧
        cacheService w' = cacheService w.
Proof.
  intros (r & s & ds & Ha & Hh & Ht & Hr & Hn).
  destruct w as [c h nx a rs e]. cbn in *.
  exec. rewrite Hr. exec.
  eexists; split; [reflexivity|]. split; [|done].
  exists r, s, (ds ++ [RawPoint.mk (Env.clock e (Env.ticks e)) d]).
  exec. rewrite length_app. cbn. repeat split; try done. lia.
Qed.

Lemma addRecordingData_all_open sid ds : ∀ t0 n w,
  recording_open sid t0 n w →
  ∃ w', addRecordingData_all sid ds w = (Ok tt, w') ∧
        recording_open sid t0 (n + length ds) w' ∧
        cacheService w' = cacheService w.
Proof.
  induction ds as [|d ds IH]; intros t0 n w Hopen.
  - exists w. cbn. rewrite Nat.add_0_r. done.
  - destruct (addRecordingData_open sid d t0 n w Hopen) as (w1 & Hrun & Ho1 & Hc1).
    destruct (IH t0 (S n) w1 Ho1) as (w2 & Hrun2 & Ho2 & Hc2).
    exists w2. cbn [addRecordingData_all]. unfold bind. rewrite Hrun.
    split; [exact Hrun2|]. split; [|congruence].
    replace (n + length (d :: ds)) with (S n + length ds) by (cbn; lia). done.
Qed.

Lemma recording_key_ne_session a b : "recording:" +:+ a ≠ "session:" +:+ b.
Proof. done. Qed.

Lemma stopRecording_open sid t0 n w :
  recording_open sid t0 n w →
  ∃ rec w',
    stopRecording sid w = (Ok rec, w') ∧
    Recording.sessionId rec = sid ∧
    length (Recording.history rec) ≤ 20 ∧
    Recording.startTime rec = Some t0 ∧
    Recording.endTime rec = Some (Env.clock (env w) (Env.ticks (env w))) ∧
    Recording.duration rec
    = Some (Env.clock (env w) (Env.ticks (env w)) - t0)%Z ∧
    length (Recording.data rec) = n ∧
    recordingSessions w' !! sid = None ∧
    CacheService.connected (cacheService w')
    = CacheService.connected (cacheService w) ∧
    (∃ r s', activeSessions w' !! sid = Some r ∧ heap w' !! r = Some s' ∧
             cacheService w'
             = (CacheService.setSession sid s'
                  (CacheService.set ("recording:" +:+ Recording.id rec)
                     (StoredRecording rec) 86400 (cacheService w)).2).2) ∧
    (CacheService.connected (cacheService w) = true →
     CacheService.client (cacheService w') !! ("recording:" +:+ Recording.id rec)
     = Some (RString (StoredRecording rec) 86400)).
Proof.
  intros (r & s & ds & Ha & Hh & Ht & Hr & Hn).
  destruct w as [[conn m] h nx a rs e]. cbn in *.
  exec. rewrite Ha. exec. rewrite Hr. exec. rewrite Hh. exec.
  exec_cache. rewrite Ht. destruct conn; exec.
  all: eexists _, _; split; [reflexivity|]; exec.
  all: split; [done|].
  all: split; [by apply (CacheFacts.slice_negative_length 20)|].
  all: do 6 (split; [done|]).
  all: split; [eexists _, _; by exec|].
  - intros _.
    rewrite lookup_insert_ne by (symmetry; apply recording_key_ne_session).
    by rewrite lookup_insert_eq.
  - done.
Qed.

(** C5 (as amended).  [startRecording] on a session that is already
    recording succeeds: it returns the session, replaces the start time by
    the current time and replaces the accumulated raw data points by the
    empty list. *)
Theorem startRecording_while_recording_resets w sid r s rec :
  activeSessions w !! sid = Some r →
  heap w !! r = Some s →
  Session.isRecording s = true →
  recordingSessions w !! sid = Some rec →
  let now := Env.clock (env w) (Env.ticks (env w)) in
  ∃ w' s',
    startRecording sid w = (Ok r, w') ∧
    heap w' !! r = Some s' ∧
    Session.isRecording s' = true ∧
    Session.recordingStartTime s' = Some now ∧
    recordingSessions w' !! sid = Some (mkRec (Some now) []).
Proof.
  destruct w as [[conn m] h n a rs e]. cbn. intros Ha Hh _ _.
  exec. rewrite Ha. exec. rewrite Hh. destruct conn; exec; exec_cache.
  all: eexists _, _; split; [reflexivity|]; exec; done.
Qed.

Lemma startRecording_while_recording_resets_witness :
  ∃ w' s',
    startRecording "uuid-0" Samples.recording = (Ok 1, w') ∧
    heap w' !! 1 = Some s' ∧
    Session.isRecording s' = true ∧
    Session.recordingStartTime s' = Some 1005%Z ∧
    recordingSessions w' !! "uuid-0" = Some (mkRec (Some 1005%Z) []).
Proof.
  eapply (startRecording_while_recording_resets Samples.recording "uuid-0" 1).
  - vm_compute. reflexivity.
  - vm_compute. reflexivity.
  - reflexivity.
  - vm_compute. reflexivity.
Defined.

(** C5, counterexample: the second [startRecording] returns the session
    (object 0), no error, and the raw data point received since the first
    start is gone. *)
Lemma start_twice_succeeds_and_resets :
  fst (Samples.start_twice (Samples.fresh true)) = Ok 0 ∧
  recordingSessions (snd (Samples.start_twice (Samples.fresh true))) !! "uuid-0"
  = Some (mkRec (Some 1004%Z) []).
Proof. split; vm_compute; reflexivity. Qed.

(** C7.  After a successful [startRecording], and whatever raw data points
    are added meanwhile, [stopRecording] returns a recording with at most
    20 history entries and [duration = endTime - startTime]; it writes the
    recording with [set] under its own key [recording:<id>] with an expiry
    of 86400 seconds, before it writes the session, and, Redis being
    connected, the recording is stored there and [getRecording] finds it. *)
Theorem stopRecording_after_startRecording w sid r w1 ds :
  startRecording sid w = (Ok r, w1) →
  ∃ w2 rec w3 t0 t1,
    addRecordingData_all sid ds w1 = (Ok tt, w2) ∧
    stopRecording sid w2 = (Ok rec, w3) ∧
    length (Recording.history rec) ≤ 20 ∧
    Recording.startTime rec = Some t0 ∧
    Recording.endTime rec = Some t1 ∧
    Recording.duration rec = Some (t1 - t0)%Z ∧
    length (Recording.data rec) = length ds ∧
    (∃ r3 s, activeSessions w3 !! sid = Some r3 ∧ heap w3 !! r3 = Some s ∧
             cacheService w3
             = (CacheService.setSession sid s
                  (CacheService.set ("recording:" +:+ Recording.id rec)
                     (StoredRecording rec) 86400 (cacheService w2)).2).2) ∧
    (CacheService.connected (cacheService w) = true →
     CacheService.client (cacheService w3) !! ("recording:" +:+ Recording.id rec)
     = Some (RString (StoredRecording rec) 86400) ∧
     fst (getRecording (Recording.id rec) w3) = Ok (Some rec)).
Proof.
  intros Hstart.
  destruct (startRecording_opens _ _ _ _ Hstart) as [Hopen Hc1].
  destruct (addRecordingData_all_open sid ds _ _ _ Hopen)
    as (w2 & Hdata & Hopen2 & Hc2).
  destruct (stopRecording_open _ _ _ _ Hopen2)
    as (rec & w3 & Hstop & _ & Hhist & Ht0 & Ht1 & Hdur & Hlen & _ & Hc3
        & Hwrite & Hstored).
  exists w2, rec, w3. eexists _, _.
  do 8 (split; [eassumption|]).
  intros Hconn. rewrite <- Hc1, <- Hc2 in Hconn.
  split; [by apply Hstored|].
  unfold getRecording, cache_read, bind, ret, CacheService.get. cbn.
  rewrite Hc3, Hconn. cbn. by rewrite (Hstored Hconn).
Qed.

Lemma stopRecording_after_startRecording_witness :
  ∃ w2 rec w3 t0 t1,
    addRecordingData_all "uuid-0" ["a"; "b"]
      (snd (startRecording "uuid-0" (Samples.joined true))) = (Ok tt, w2) ∧
    stopRecording "uuid-0" w2 = (Ok rec, w3) ∧
    length (Recording.history rec) ≤ 20 ∧
    Recording.startTime rec = Some t0 ∧
    Recording.endTime rec = Some t1 ∧
    Recording.duration rec = Some (t1 - t0)%Z ∧
    length (Recording.data rec) = 2 ∧
    CacheService.client (cacheService w3) !! ("recording:" +:+ Recording.id rec)
    = Some (RString (StoredRecording rec) 86400) ∧
    fst (getRecording (Recording.id rec) w3) = Ok (Some rec).
Proof.
  destruct (stopRecording_after_startRecording (Samples.joined true) "uuid-0" 1
              (snd (startRecording "uuid-0" (Samples.joined true))) ["a"; "b"])
    as (w2 & rec & w3 & t0 & t1 & H1 & H2 & H3 & H4 & H5 & H6 & H7 & _ & H8).
  - vm_compute. reflexivity.
  - exists w2, rec, w3, t0, t1. repeat split; try assumption; by apply H8.
Defined.

(** *** Last activity *)

(** C6 (as amended).  With a clock that does not go back, [lastActivity]
    of a session held in memory and in Redis never decreases; join, leave,
    update and history append set it to a reading of the clock taken during
    the operation; [startRecording] and [stopRecording] leave it as it
    is. *)
Theorem lastActivity_refreshed_except_recording op sid w w' t t' :
  (∀ i j, i ≤ j → (Env.clock (env w) i ≤ Env.clock (env w) j)%Z) →
  lastActivity_of sid w = Some t →
  (t ≤ Env.clock (env w) (Env.ticks (env w)))%Z →
  is_Some (CacheService.getSession sid (cacheService w)) →
  run_op sid op w = (Ok tt, w') →
  lastActivity_of sid w' = Some t' →
  (t ≤ t')%Z ∧
  if refreshes op
  then ∃ k, Env.ticks (env w) ≤ k < Env.ticks (env w') ∧
            t' = Env.clock (env w) k
  else t' = t.
Proof.
  destruct w as [[conn m] h n a rs e]. unfold lastActivity_of. cbn.
  intros Hmono Hla Hpast [s0 Hstore].
  destruct (a !! sid) as [r|] eqn:Ha; [|discriminate].
  destruct (h !! r) as [s|] eqn:Hh; [|discriminate].
  cbn in Hla. injection Hla as <-.
  destruct op as [pid opts|pid|u|entry| |]; cbn [run_op refreshes].
  - (* join *)
    unfold joinSession, cacheService_getSession, cache_read, bind. cbn.
    rewrite Hstore.
    destruct opts as [[l|] [v|] oa ov os], conn; exec;
      repeat (first [case_decide|case_bool_decide]; exec).
    all: intros [= <-]; exec; intros [= <-].
    all: split; [lia|exists (Env.ticks e); split; [lia|done]].
  - (* leave *)
    unfold leaveSession, cacheService_getSession, cache_read, bind. cbn.
    rewrite Hstore. exec.
    destruct (length (filter _ _) =? 0); destruct conn; exec.
    all: intros [= <-]; exec; try discriminate; intros [= <-].
    all: split; [lia|exists (Env.ticks e); split; [lia|done]].
  - (* update *)
    exec. rewrite Ha. exec. rewrite Hh. destruct conn; exec.
    all: intros [= <-]; exec; intros [= <-].
    all: split; [lia|exists (Env.ticks e); split; [lia|done]].
  - (* append *)
    exec_h. rewrite Ha. exec_h.
    destruct (EntryInput.timestamp entry) as [v|]; [destruct (v =? 0)%Z|];
      exec_h; rewrite Hh; exec_h.
    all: destruct (CacheService.addToSessionHistory _ _ _) as [ok [conn1 m1]];
      exec_h; rewrite ?Hh; exec_h; destruct conn1; exec_h.
    all: intros [= <-]; exec_h; intros [= <-].
    all: split;
      [ first [lia | etrans; [exact Hpast | apply Hmono; lia]]
      | eexists; split; [|reflexivity]; lia ].
  - (* startRecording *)
    exec. rewrite Ha. exec. rewrite Hh. destruct conn; exec.
    all: intros [= <-]; exec; intros [= <-].
    all: split; [lia|done].
  - (* stopRecording *)
    exec. rewrite Ha. exec.
    destruct (rs !! sid) as [rec|]; [|discriminate].
    exec. rewrite Hh. destruct conn; exec.
    all: intros [= <-]; exec; intros [= <-].
    all: split; [lia|done].
Qed.

Lemma lastActivity_refreshed_except_recording_witness :
  (1002 ≤ 1003)%Z ∧
  ∃ k, 3 ≤ k < 4 ∧ 1003%Z = Samples.clock k.
Proof.
  apply (lastActivity_refreshed_except_recording
           (Update Samples.to_french) "uuid-0" (Samples.joined true)
           (snd (run_op "uuid-0" (Update Samples.to_french)
                        (Samples.joined true)))
           1002%Z 1003%Z).
  - intros i j Hij. change (Samples.clock i ≤ Samples.clock j)%Z.
    unfold Samples.clock. lia.
  - vm_compute. reflexivity.
  - vm_compute. discriminate.
  - eexists. vm_compute. reflexivity.
  - vm_compute. reflexivity.
  - vm_compute. reflexivity.
Defined.

(** C6, counterexample: a recording is started at clock reading 1003 on a
    session last active at 1002; its [lastActivity] still reads 1002. *)
Lemma startRecording_leaves_lastActivity :
  lastActivity_of "uuid-0" (Samples.joined true) = Some 1002%Z ∧
  Session.recordingStartTime
  <$> returned_session (startRecording "uuid-0" (Samples.joined true))
  = Some (Some 1003%Z) ∧
  lastActivity_of "uuid-0" (snd (startRecording "uuid-0" (Samples.joined true)))
  = Some 1002%Z.
Proof. repeat split; vm_compute; reflexivity. Qed.

End ManagerFacts.

(** * Further properties of the code *)

(** ** GeminiLiveService *)

Module LiveMore.
Import GeminiLiveService LiveTrace.

Lemma delete_last {A} (l : list A) x : delete (length l) (l ++ [x]) = l.
Proof.
  induction l as [|a l IH]; [reflexivity|]. simpl. by rewrite IH.
Qed.

Lemma lookup_last {A} (l : list A) x : (l ++ [x]) !! length l = Some x.
Proof. by rewrite lookup_app_r, Nat.sub_diag. Qed.

(** X1.  A response cycle on an idle, open session: the chunk starts a call,
    and when that call returns the service is back in the state it had before
    the chunk, with one [response] event more if the call resolved and with
    nothing more if it was rejected. *)
Theorem response_cycle_round_trip g session chunk s o :
  sessions g !! Session.id session = Some s →
  responding s = false →
  let g1 := sendAudioChunk session chunk g in
  is_responding (Session.id session) g1 = true ∧
  in_flight (Session.id session) g1 = S (in_flight (Session.id session) g) ∧
  getResponse_returns (length (outstanding g)) o g1
  = match o with
    | Resolved text audio =>
        emit (response (Session.id session) text audio
                       (Session.language session) (Session.voice session)) g
    | Rejected => g
    end.
Proof.
  intros Hs Hr. destruct g as [ss out em]. destruct s as [i instr r].
  simpl in *. subst r.
  unfold sendAudioChunk, is_responding, in_flight. simpl. rewrite Hs. simpl.
  rewrite lookup_insert_eq. split; [done|]. split.
  - rewrite Live.calls_of_app, length_app, Live.calls_of_cons. simpl.
    rewrite decide_True by done. simpl. lia.
  - unfold getResponse_returns. simpl. rewrite lookup_last, delete_last.
    unfold sendAudioChunk_resume, sendAudioChunk_finally.
    destruct o as [text audio|]; simpl; rewrite lookup_insert_eq; simpl;
      rewrite ?lookup_insert_eq; simpl;
      rewrite insert_insert_eq, (insert_id _ _ _ Hs); reflexivity.
Qed.

Lemma response_cycle_round_trip_witness :
  let g := openSession "s1" None init in
  getResponse_returns 0 (Resolved "hello" None)
    (sendAudioChunk Samples.alice "chunk" g)
  = emit (response "s1" "hello" None "en" "male") g.
Proof.
  intros g.
  exact (proj2 (proj2 (response_cycle_round_trip g Samples.alice "chunk"
                         (mkLive "s1" "" false) (Resolved "hello" None)
                         eq_refl eq_refl))).
Defined.

(** X2.  A session that is not open (never opened, or closed): a chunk for it
    is ignored, and a call of it that returns, resolved or rejected, is
    removed without an event and without bringing the session back. *)
Theorem closed_session_ignores_chunks_and_results g session chunk k c o :
  sessions g !! Session.id session = None →
  outstanding g !! k = Some c →
  Session.id (GeminiLiveService.session c) = Session.id session →
  sendAudioChunk session chunk g = g ∧
  getResponse_returns k o g
  = mk (sessions g) (delete k (outstanding g)) (emitted g).
Proof.
  intros Hs Hk Hid. split.
  - unfold sendAudioChunk. by rewrite Hs.
  - unfold getResponse_returns, sendAudioChunk_resume, sendAudioChunk_finally.
    rewrite Hk. destruct o as [text audio|]; simpl; rewrite Hid, Hs; simpl;
      rewrite ?Hid, ?Hs; reflexivity.
Qed.

Lemma closed_session_ignores_chunks_and_results_witness :
  let g := closeSession "s1"
             (sendAudioChunk Samples.alice "a" (openSession "s1" None init)) in
  sendAudioChunk Samples.alice "b" g = g ∧
  getResponse_returns 0 (Resolved "late" None) g
  = mk (sessions g) (delete 0 (outstanding g)) (emitted g).
Proof.
  intros g.
  exact (closed_session_ignores_chunks_and_results g Samples.alice "b" 0
           (mkCall "..." Samples.alice) (Resolved "late" None)
           eq_refl eq_refl eq_refl).
Defined.

Lemma responses_emit e g :
  responses (emit e g) = responses g + (if is_response e then 1 else 0).
Proof.
  unfold responses, emit. simpl. rewrite filter_app, length_app. f_equal.
  by destruct e.
Qed.

Lemma step_count g e :
  responses (step g e) + length (outstanding (step g e))
  ≤ responses g + length (outstanding g) + (if is_audio e then 1 else 0).
Proof.
  destruct e as [s i|s|s|sess chunk|k o]; simpl.
  - unfold openSession. rewrite responses_emit. simpl. unfold responses. simpl. lia.
  - unfold closeSession. rewrite responses_emit. simpl. unfold responses. simpl. lia.
  - unfold interrupt. destruct (sessions g !! s); [|lia].
    rewrite responses_emit. simpl. unfold responses. simpl. lia.
  - unfold sendAudioChunk. destruct (sessions g !! Session.id sess) as [ls|]; [|lia].
    destruct (responding ls); [lia|]. unfold responses. simpl.
    rewrite length_app. simpl. lia.
  - unfold getResponse_returns.
    destruct (outstanding g !! k) as [c|] eqn:Hk; [|lia].
    assert (length (delete k (outstanding g)) + 1 = length (outstanding g)) as Hlen.
    { pose proof (lookup_lt_Some _ _ _ Hk). rewrite length_delete by eauto.
      lia. }
    unfold sendAudioChunk_resume.
    set (g0 := mk (sessions g) (delete k (outstanding g)) (emitted g)).
    assert (∀ g1, responses (sendAudioChunk_finally (session c) g1) = responses g1
                  ∧ outstanding (sendAudioChunk_finally (session c) g1)
                    = outstanding g1) as Hfin.
    { intros g1. unfold sendAudioChunk_finally. by destruct (sessions g1 !! _). }
    destruct o as [text audio|].
    + destruct (sessions g0 !! Session.id (session c)).
      * destruct (Hfin (emit (response (Session.id (session c)) text audio
                                (Session.language (session c))
                                (Session.voice (session c))) g0)) as [-> ->].
        rewrite responses_emit. simpl. unfold responses. simpl. lia.
      * destruct (Hfin g0) as [-> ->]. unfold responses. simpl. lia.
    + destruct (Hfin g0) as [-> ->]. unfold responses. simpl. lia.
Qed.

Lemma run_count es : ∀ g,
  responses (run g es) + length (outstanding (run g es))
  ≤ responses g + length (outstanding g) + chunks es.
Proof.
  induction es as [|e es IH]; intros g; simpl.
  - unfold chunks. simpl. lia.
  - specialize (IH (step g e)). pose proof (step_count g e) as Hs.
    assert (chunks (e :: es) = (if is_audio e then 1 else 0) + chunks es)
      as ->; [by destruct e|].
    lia.
Qed.

(** X3.  In every run of the service from its initial state, the [response]
    events emitted and the calls still outstanding together never outnumber
    the audio chunks received: no response is emitted without a chunk that
    started its call, and no call gives two responses. *)
Theorem responses_bounded_by_chunks es :
  responses (run init es) + length (outstanding (run init es)) ≤ chunks es.
Proof.
  pose proof (run_count es init) as H. unfold responses in H at 2.
  simpl in H. lia.
Qed.

Lemma keyed_step g e : keyed g → keyed (step g e).
Proof.
  intros Hk. destruct e as [s i|s|s|sess chunk|k o]; simpl.
  - intros k0 s0. unfold openSession. simpl.
    destruct (decide (s = k0)) as [->|Hne].
    + rewrite lookup_insert_eq. by intros [= <-].
    + rewrite lookup_insert_ne by done. apply Hk.
  - intros k0 s0. unfold closeSession. simpl. intros Hl.
    apply lookup_delete_Some in Hl as [_ Hl]. by apply Hk.
  - unfold interrupt. destruct (sessions g !! s) as [ls|] eqn:Hl; [|done].
    intros k0 s0. simpl. destruct (decide (s = k0)) as [->|Hne].
    + rewrite lookup_insert_eq. intros [= <-]. simpl. by apply Hk.
    + rewrite lookup_insert_ne by done. apply Hk.
  - unfold sendAudioChunk.
    destruct (sessions g !! Session.id sess) as [ls|] eqn:Hl; [|done].
    destruct (responding ls); [done|].
    intros k0 s0. simpl. destruct (decide (Session.id sess = k0)) as [<-|Hne].
    + rewrite lookup_insert_eq. intros [= <-]. simpl. by apply Hk.
    + rewrite lookup_insert_ne by done. apply Hk.
  - unfold getResponse_returns.
    destruct (outstanding g !! k) as [c|]; [|done].
    unfold sendAudioChunk_resume.
    assert (∀ g1, keyed g1 → keyed (sendAudioChunk_finally (session c) g1)) as Hfin.
    { intros g1 Hk1. unfold sendAudioChunk_finally.
      destruct (sessions g1 !! Session.id (session c)) as [ls|] eqn:Hl; [|done].
      intros k0 s0. simpl.
      destruct (decide (Session.id (session c) = k0)) as [<-|Hne].
      - rewrite lookup_insert_eq. intros [= <-]. simpl. by apply Hk1.
      - rewrite lookup_insert_ne by done. apply Hk1. }
    apply Hfin. destruct o as [text audio|]; [|exact Hk]. simpl.
    destruct (sessions g !! Session.id (session c)); exact Hk.
Qed.

Lemma busy_has_call_step g e : busy_has_call g → busy_has_call (step g e).
Proof.
  intros Hb. destruct e as [s i|s|s|sess chunk|k o]; simpl.
  - intros sid ls. unfold openSession, in_flight. simpl.
    destruct (decide (s = sid)) as [->|Hne].
    + rewrite lookup_insert_eq. by intros [= <-].
    + rewrite lookup_insert_ne by done. apply Hb.
  - intros sid ls. unfold closeSession, in_flight. simpl. intros Hl.
    apply lookup_delete_Some in Hl as [_ Hl]. by apply Hb.
  - unfold interrupt. destruct (sessions g !! s) as [ls0|] eqn:Hl; [|done].
    intros sid ls. unfold in_flight. simpl.
    destruct (decide (s = sid)) as [->|Hne].
    + rewrite lookup_insert_eq. by intros [= <-].
    + rewrite lookup_insert_ne by done. apply Hb.
  - unfold sendAudioChunk.
    destruct (sessions g !! Session.id sess) as [ls0|] eqn:Hl; [|done].
    destruct (responding ls0); [done|].
    intros sid ls. unfold in_flight. simpl.
    rewrite Live.calls_of_app, length_app, Live.calls_of_cons. simpl.
    destruct (decide (Session.id sess = sid)) as [Heq|Hne].
    + intros _ _. simpl. lia.
    + rewrite lookup_insert_ne by done. intros H1 H2.
      pose proof (Hb sid ls H1 H2) as H3. unfold in_flight in H3. lia.
  - unfold getResponse_returns.
    destruct (outstanding g !! k) as [c|] eqn:Hk; [|done].
    intros sid ls.
    pose proof (Live.calls_of_delete sid _ _ _ Hk) as Hcount.
    set (g0 := mk (sessions g) (delete k (outstanding g)) (emitted g)).
    assert (outstanding (sendAudioChunk_resume c o g0)
            = delete k (outstanding g)) as Hout.
    { unfold sendAudioChunk_resume, sendAudioChunk_finally.
      destruct o as [text audio|]; simpl;
        destruct (sessions g !! Session.id (session c)) eqn:Hs; simpl;
        rewrite ?Hs; reflexivity. }
    unfold in_flight. rewrite Hout.
    destruct (decide (Session.id (session c) = sid)) as [Heq|Hne].
    + (* the flag of the session of the call is cleared *)
      intros Hl Hr. exfalso. revert Hl Hr.
      unfold sendAudioChunk_resume, sendAudioChunk_finally. rewrite <- Heq.
      destruct o as [text audio|]; simpl;
        destruct (sessions g !! Session.id (session c)) eqn:Hs; simpl;
        rewrite ?Hs; simpl; rewrite ?Hs, ?lookup_insert_eq;
        intros Hl Hr; simplify_eq; done.
    + intros Hl Hr.
      assert (sessions g !! sid = Some ls) as Hl'.
      { revert Hl. unfold sendAudioChunk_resume, sendAudioChunk_finally.
        destruct o as [text audio|]; simpl;
          destruct (sessions g !! Session.id (session c)) eqn:Hs; simpl;
          rewrite ?Hs; simpl; rewrite ?lookup_insert_ne by done; done. }
      pose proof (Hb sid ls Hl' Hr) as H3. unfold in_flight in H3. lia.
Qed.

(** X4.  In every run from the initial state a live session is stored under
    its own id, and a session whose [responding] flag is set has a call
    outstanding: the flag never stays set after the last call of the session
    has returned. *)
Theorem responding_has_outstanding_call es :
  keyed (run init es) ∧ busy_has_call (run init es).
Proof.
  assert (∀ g, keyed g ∧ busy_has_call g →
               keyed (run g es) ∧ busy_has_call (run g es)) as H.
  { induction es as [|e es IH]; intros g [Hk Hb]; [done|].
    simpl. apply IH. split; [by apply keyed_step|by apply busy_has_call_step]. }
  apply H. split; intros k s; unfold init; simpl; by rewrite lookup_empty.
Qed.

End LiveMore.

(** ** CacheService *)

Module CacheMore.
Import CacheService CacheSweep.

Lemma substring_all x : String.substring 0 (String.length x) x = x.
Proof. induction x as [|a x IH]; [reflexivity|]. simpl. by rewrite IH. Qed.

Lemma index_session x : String.index 0 "session:" ("session:" +:+ x) = Some 0.
Proof. destruct x; reflexivity. Qed.

Lemma replace_session_prefix x : replace "session:" "" ("session:" +:+ x) = x.
Proof.
  unfold replace. rewrite index_session.
  change (String.substring 0 0 ("session:" +:+ x)) with "".
  change (String.substring (0 + String.length "session:")
            (String.length ("session:" +:+ x) - (0 + String.length "session:"))
            ("session:" +:+ x))
    with (String.substring 0 (String.length x - 0) x).
  rewrite Nat.sub_0_r, substring_all. reflexivity.
Qed.

Lemma prefix_session k :
  String.prefix "session:" k = true → ∃ x, k = "session:" +:+ x.
Proof.
  intros H.
  do 8 (destruct k as [|? k]; [discriminate H|]; cbn [String.prefix] in H;
        match type of H with
        | context [Ascii.ascii_dec ?a ?b] =>
            destruct (Ascii.ascii_dec a b) as [<-|?]; [|discriminate H]
        end).
  by exists k.
Qed.

Lemma session_prefix x : String.prefix "session:" ("session:" +:+ x) = true.
Proof. destruct x; reflexivity. Qed.

Lemma history_key_inj a b : "history:" +:+ a = "history:" +:+ b → a = b.
Proof. intros H. by simplify_eq/=. Qed.
Lemma session_key_inj a b : "session:" +:+ a = "session:" +:+ b → a = b.
Proof. intros H. by simplify_eq/=. Qed.

Lemma cleanup_key_session now m x :
  cleanup_key now (mk true m) ("session:" +:+ x)
  = match m !! ("session:" +:+ x) with
    | Some (RString (StoredSession s) _) =>
        if (24 * 60 * 60 * 1000 <? now - Session.lastActivity s)%Z
        then mk true (delete ("history:" +:+ x) (delete ("session:" +:+ x) m))
        else mk true m
    | _ => mk true m
    end.
Proof.
  unfold cleanup_key, get, del. cbn [connected client negb].
  rewrite replace_session_prefix.
  by destruct (m !! ("session:" +:+ x)) as [[[s|r] ttl|l]|].
Qed.

(** One step either leaves the store or deletes the two keys of a stale
    session. *)
Lemma cleanup_key_cases now m x :
  cleanup_key now (mk true m) ("session:" +:+ x) = mk true m ∨
  (stale now x (mk true m) ∧
   cleanup_key now (mk true m) ("session:" +:+ x)
   = mk true (delete ("history:" +:+ x) (delete ("session:" +:+ x) m))).
Proof.
  rewrite cleanup_key_session. unfold stale. simpl.
  destruct (m !! ("session:" +:+ x)) as [[[s|r] ttl|l]|]; try by left.
  destruct (Z.ltb_spec (24 * 60 * 60 * 1000) (now - Session.lastActivity s));
    [right|by left].
  split; [|done]. by exists s, ttl.
Qed.

Lemma fold_gone now ks k : ∀ m, Forall prefixed ks →
  m !! k = None →
  client (foldl (cleanup_key now) (mk true m) ks) !! k = None.
Proof.
  induction ks as [|k0 ks IH]; intros m Hks Hk; [exact Hk|].
  inversion Hks as [|? ? [x ->] Hks']; subst. simpl.
  destruct (cleanup_key_cases now m x) as [->|[_ ->]]; apply IH; try done.
  by rewrite !lookup_delete_None; right; right.
Qed.

Lemma fold_kept now ks k : ∀ m, Forall prefixed ks →
  (∀ x, k = "session:" +:+ x ∨ k = "history:" +:+ x →
        ¬ stale now x (mk true m)) →
  client (foldl (cleanup_key now) (mk true m) ks) !! k = m !! k.
Proof.
  induction ks as [|k0 ks IH]; intros m Hks Hk; [reflexivity|].
  inversion Hks as [|? ? [x ->] Hks']; subst. simpl.
  destruct (cleanup_key_cases now m x) as [->|[Hst ->]]; [by apply IH|].
  assert (k ≠ "session:" +:+ x ∧ k ≠ "history:" +:+ x) as [Hn1 Hn2].
  { split; intros ->; eapply Hk; eauto. }
  rewrite IH; [by rewrite !lookup_delete_ne|done|].
  intros y Hy (s & ttl & Hl & Hold). simpl in Hl.
  apply lookup_delete_Some in Hl as [_ Hl].
  apply lookup_delete_Some in Hl as [_ Hl].
  apply (Hk y Hy). by exists s, ttl.
Qed.

Lemma fold_removed now sid ks : ∀ m, Forall prefixed ks →
  (m !! ("session:" +:+ sid) = None ∧ m !! ("history:" +:+ sid) = None) ∨
  (stale now sid (mk true m) ∧ "session:" +:+ sid ∈ ks) →
  client (foldl (cleanup_key now) (mk true m) ks) !! ("session:" +:+ sid) = None ∧
  client (foldl (cleanup_key now) (mk true m) ks) !! ("history:" +:+ sid) = None.
Proof.
  induction ks as [|k0 ks IH]; intros m Hks Hcase.
  - destruct Hcase as [Hnone|[_ Hin]]; [exact Hnone|]. by apply elem_of_nil in Hin.
  - destruct Hcase as [[Hs Hh]|[Hst Hin]].
    { split; by apply fold_gone. }
    inversion Hks as [|? ? [x ->] Hks']; subst. simpl.
    destruct (decide (x = sid)) as [->|Hne].
    + destruct Hst as (s & ttl & Hl & Hold). simpl in Hl.
      rewrite cleanup_key_session, Hl.
      destruct (Z.ltb_spec (24 * 60 * 60 * 1000) (now - Session.lastActivity s));
        [|lia].
      split; apply fold_gone; try done.
      * rewrite lookup_delete_ne by done. apply lookup_delete_eq.
      * apply lookup_delete_eq.
    + apply elem_of_cons in Hin as [Heq|Hin];
        [by apply session_key_inj in Heq|].
      destruct (cleanup_key_cases now m x) as [->|[_ ->]]; apply IH; try done.
      * right. by split.
      * right. split; [|done].
        destruct Hst as (s & ttl & Hl & Hold). exists s, ttl. simpl in *.
        split; [|done].
        rewrite !lookup_delete_ne; [done| |].
        -- intros H. by apply session_key_inj in H.
        -- done.
Qed.

Lemma keys_session_prefixed c : Forall prefixed (keys_session c).
Proof.
  apply Forall_forall. intros k Hk. unfold keys_session in Hk.
  apply list_elem_of_filter in Hk as [Hp _]. by apply prefix_session.
Qed.

Lemma keys_session_elem c x v :
  client c !! ("session:" +:+ x) = Some v → "session:" +:+ x ∈ keys_session c.
Proof.
  intros Hl. unfold keys_session. apply list_elem_of_filter. split.
  - apply session_prefix.
  - apply list_elem_of_fmap. exists ("session:" +:+ x, v). split; [done|].
    by apply elem_of_map_to_list.
Qed.

Lemma fold_connected now ks : ∀ m, Forall prefixed ks →
  connected (foldl (cleanup_key now) (mk true m) ks) = true.
Proof.
  induction ks as [|k ks IH]; intros m Hks; [reflexivity|].
  inversion Hks as [|? ? [x ->] Hks']; subst. simpl.
  destruct (cleanup_key_cases now m x) as [->|[_ ->]]; by apply IH.
Qed.

(** X5.  Round trip of a session through a connected store: what
    [setSession] writes, [getSession] reads back; the write leaves the other
    sessions and every history list as they are; after [deleteSession] the
    session reads as absent. *)
Theorem session_round_trip sid sid' s c :
  connected c = true →
  getSession sid (setSession sid s c).2 = Some s ∧
  (sid' ≠ sid → getSession sid' (setSession sid s c).2 = getSession sid' c) ∧
  getSessionHistory sid' (setSession sid s c).2 = getSessionHistory sid' c ∧
  getSession sid (deleteSession sid (setSession sid s c).2).2 = None.
Proof.
  destruct c as [conn m]. simpl. intros ->.
  unfold getSession, setSession, deleteSession, getSessionHistory, get, set,
    del, lrange. simpl.
  rewrite lookup_insert_eq, lookup_delete_eq. repeat split.
  - intros Hne. rewrite lookup_insert_ne; [done|].
    intros H. by apply session_key_inj in H.
  - by rewrite lookup_insert_ne.
Qed.

Lemma session_round_trip_witness :
  getSession "s1" (setSession "s1" Samples.alice (mk true ∅)).2
  = Some Samples.alice.
Proof.
  exact (proj1 (session_round_trip "s1" "s2" Samples.alice (mk true ∅) eq_refl)).
Defined.

(** X6.  [cleanupOldSessions] on a connected store leaves a key as it is,
    unless it is the session key or the history key of a session older than
    24 hours: sessions active within the day keep their entry and their
    history, and recordings are never touched. *)
Theorem cleanupOldSessions_keeps now c k :
  connected c = true →
  (∀ x, k = "session:" +:+ x ∨ k = "history:" +:+ x → ¬ stale now x c) →
  connected (cleanupOldSessions now c) = true ∧
  client (cleanupOldSessions now c) !! k = client c !! k.
Proof.
  destruct c as [conn m]. simpl. intros -> Hk. unfold cleanupOldSessions. simpl.
  split.
  - apply fold_connected, keys_session_prefixed.
  - apply fold_kept; [apply keys_session_prefixed|done].
Qed.

Lemma cleanupOldSessions_keeps_witness :
  client (cleanupOldSessions 5000 (SessionManager.cacheService Scenarios.created))
    !! "session:uuid-0"
  = client (SessionManager.cacheService Scenarios.created) !! "session:uuid-0".
Proof.
  refine (proj2 (cleanupOldSessions_keeps 5000
                   (SessionManager.cacheService Scenarios.created)
                   "session:uuid-0" eq_refl _)).
  intros x [H|H]; [|discriminate H].
  apply (session_key_inj "uuid-0") in H. subst x.
  intros (s & ttl & Hl & Hold). vm_compute in Hl.
  injection Hl as <- _. vm_compute in Hold. discriminate Hold.
Defined.

(** X7.  [cleanupOldSessions] on a connected store removes every session
    whose [lastActivity] is more than 24 hours before [now], together with
    the history list of that session. *)
Theorem cleanupOldSessions_removes now c sid :
  connected c = true →
  stale now sid c →
  client (cleanupOldSessions now c) !! ("session:" +:+ sid) = None ∧
  client (cleanupOldSessions now c) !! ("history:" +:+ sid) = None.
Proof.
  destruct c as [conn m]. simpl. intros -> Hst. unfold cleanupOldSessions. simpl.
  apply fold_removed; [apply keys_session_prefixed|].
  right. split; [done|].
  destruct Hst as (s & ttl & Hl & _). by eapply keys_session_elem.
Qed.

Lemma cleanupOldSessions_removes_witness :
  client (cleanupOldSessions 90000000
            (SessionManager.cacheService Scenarios.created))
    !! "session:uuid-0" = None.
Proof.
  refine (proj1 (cleanupOldSessions_removes 90000000
                   (SessionManager.cacheService Scenarios.created)
                   "uuid-0" eq_refl _)).
  exists (Session.mk "uuid-0" 1000 1001 [] "en" "male" [] false []
            (Settings.mk false true true) None None None None), 3600%Z.
  split.
  - vm_compute. reflexivity.
  - vm_compute. reflexivity.
Defined.

(** X20.  [addToSessionHistory] either succeeds or changes nothing.  It
    succeeds exactly when Redis is connected and the history key does not
    hold a string; the new entry is then first in the list, the list is the
    previous one cut to 100 entries in all, and no other key is touched. *)
Theorem addToSessionHistory_all_or_nothing sid e c :
  let ok := (addToSessionHistory sid e c).1 in
  let c' := (addToSessionHistory sid e c).2 in
  (if ok
   then getSessionHistory sid c' = take 100 (e :: getSessionHistory sid c) ∧
        length (getSessionHistory sid c') ≤ 100
   else c' = c) ∧
  (ok = true ↔
   connected c = true ∧
   ∀ v ttl, client c !! ("history:" +:+ sid) ≠ Some (RString v ttl)) ∧
  ∀ k, k ≠ "history:" +:+ sid → client c' !! k = client c !! k.
Proof.
  destruct c as [conn m].
  unfold addToSessionHistory, getSessionHistory, lpush, ltrim, lrange.
  set (key := "history:" +:+ sid). cbn [connected client].
  destruct conn; cbn [negb].
  2:{ cbn. split; [done|]. split; [|done]. split; [done|]. by intros [? _]. }
  destruct (m !! key) as [[v ttl|l]|] eqn:Hk; cbn [fst snd with_client connected client negb].
  - cbn. split; [done|]. split; [|done]. split; [done|].
    intros [_ Hne]. by destruct (Hne v ttl).
  - rewrite lookup_insert_eq, CacheFacts.redis_range_0_99, CacheFacts.redis_range_all.
    rewrite firstn_cons. cbn [fst snd with_client connected client negb].
    rewrite lookup_insert_eq, CacheFacts.redis_range_all.
    split; [split; [done|]|].
    { change (e :: take 99 l) with (take 100 (e :: l)). rewrite length_take. lia. }
    split; [split; [intros _; split; [done|]; intros ???; congruence|done]|].
    intros k Hne. by rewrite !lookup_insert_ne.
  - rewrite lookup_insert_eq, CacheFacts.redis_range_0_99.
    cbn [take fst snd with_client connected client negb].
    rewrite lookup_insert_eq, CacheFacts.redis_range_all.
    split; [split; [done|cbn; lia]|].
    split; [split; [intros _; split; [done|]; intros ???; congruence|done]|].
    intros k Hne. by rewrite !lookup_insert_ne.
Qed.

End CacheMore.

(** ** SessionManager *)

Module ManagerMore.
Import SessionManager ManagerFacts ManagerState.

Ltac proj_world :=
  cbn [cacheService heap nextRef activeSessions recordingSessions env
       with_activeSessions with_cacheService with_heap with_env
       with_recordingSessions CacheService.connected CacheService.client];
  unfold CacheService.with_client;
  cbn [CacheService.connected CacheService.client].

(** X8.  [getSession] looks in memory first.  On a miss it asks Redis, and a
    session found there becomes a new object cached under the id, so that the
    next lookups are answered from memory whatever Redis holds by then; a
    session in neither place is reported as absent and nothing changes. *)
Theorem getSession_memory_first w sid :
  match activeSessions w !! sid with
  | Some r => getSession sid w = (Ok (Some r), w)
  | None =>
      match CacheService.getSession sid (cacheService w) with
      | Some s =>
          ∃ w', getSession sid w = (Ok (Some (nextRef w)), w') ∧
                heap w' !! nextRef w = Some s ∧
                activeSessions w' = <[sid := nextRef w]> (activeSessions w) ∧
                cacheService w' = cacheService w ∧
                ∀ c, getSession sid (with_cacheService c w')
                     = (Ok (Some (nextRef w)), with_cacheService c w')
      | None => getSession sid w = (Ok None, w)
      end
  end.
Proof.
  destruct w as [c h n a rs e]. cbn [activeSessions cacheService nextRef].
  unfold getSession, activeSessions_get, cacheService_getSession, cache_read,
    bind. cbn -[CacheService.getSession].
  destruct (a !! sid) as [r|] eqn:Ha; [reflexivity|].
  cbn -[CacheService.getSession].
  destruct (CacheService.getSession sid c) as [s|] eqn:Hs; [|reflexivity].
  eexists. split; [reflexivity|]. cbn.
  rewrite !lookup_insert_eq. repeat split; reflexivity.
Qed.

(** X9.  For an id that is neither in memory nor in Redis, [updateSession],
    [addToHistory] and [startRecording] throw 'Session not found',
    [stopRecording] throws 'Session or recording not found', [deleteSession]
    returns false and [leaveSession] returns normally; none of them changes
    the state. *)
Theorem missing_session_errors w sid pid u entry :
  activeSessions w !! sid = None →
  CacheService.getSession sid (cacheService w) = None →
  updateSession sid u w = (Throw "Session not found", w) ∧
  addToHistory sid entry w = (Throw "Session not found", w) ∧
  startRecording sid w = (Throw "Session not found", w) ∧
  stopRecording sid w = (Throw "Session or recording not found", w) ∧
  deleteSession sid w = (Ok false, w) ∧
  leaveSession sid pid w = (Ok tt, w).
Proof.
  destruct w as [c h n a rs e]. cbn. intros Ha Hs.
  unfold updateSession, addToHistory, startRecording, stopRecording,
    deleteSession, leaveSession, getSession, activeSessions_get,
    cacheService_getSession, cache_read, recordingSessions_get, bind.
  repeat (cbn -[CacheService.getSession]; rewrite ?Ha, ?Hs).
  repeat split.
Qed.

Lemma missing_session_errors_witness :
  updateSession "nobody" Samples.to_french (Samples.fresh true)
  = (Throw "Session not found", Samples.fresh true).
Proof.
  exact (proj1 (missing_session_errors (Samples.fresh true) "nobody" "p1"
                  Samples.to_french (Samples.entry "one") eq_refl eq_refl)).
Defined.

(** X10.  [updateSession] on a session in memory, Redis connected: the given
    fields are merged into the object, [lastActivity] becomes the current
    time (a [lastActivity] among the updates is overwritten), and the copy in
    Redis equals the object in memory afterwards. *)
Theorem updateSession_write_through w sid r s u :
  activeSessions w !! sid = Some r →
  heap w !! r = Some s →
  CacheService.connected (cacheService w) = true →
  let s' := Session.with_lastActivity (Env.clock (env w) (Env.ticks (env w)))
              (Updates.assign s u) in
  ∃ w', updateSession sid u w = (Ok r, w') ∧
        heap w' !! r = Some s' ∧
        activeSessions w' !! sid = Some r ∧
        CacheService.getSession sid (cacheService w') = Some s'.
Proof.
  destruct w as [[conn m] h n a rs e]. cbn. intros Ha Hh ->.
  exec. rewrite Ha. exec. rewrite Hh. exec. exec_cache.
  eexists. split; [reflexivity|]. by exec.
Qed.

Lemma updateSession_write_through_witness :
  ∃ w' s',
    updateSession "uuid-0" Samples.to_french (Samples.joined true) = (Ok 1, w') ∧
    heap w' !! 1 = Some s' ∧
    Session.language s' = "fr" ∧ Session.lastActivity s' = 1003%Z ∧
    CacheService.getSession "uuid-0" (cacheService w') = Some s'.
Proof.
  destruct (updateSession_write_through (Samples.joined true) "uuid-0" 1
              Scenarios.joined_session Samples.to_french
              ltac:(vm_compute; reflexivity) ltac:(vm_compute; reflexivity)
              eq_refl)
    as (w' & Hrun & Hheap & _ & Hstore).
  exists w'. eexists. split; [exact Hrun|]. split; [exact Hheap|].
  split; [vm_compute; reflexivity|]. split; [vm_compute; reflexivity|].
  exact Hstore.
Defined.

Lemma getSessionHistory_insert_session sid sid' v conn m :
  CacheService.getSessionHistory sid
    (CacheService.mk conn (<["session:" +:+ sid' := v]> m))
  = CacheService.getSessionHistory sid (CacheService.mk conn m).
Proof.
  unfold CacheService.getSessionHistory, CacheService.lrange. simpl.
  by rewrite lookup_insert_ne by (symmetry; apply history_key_ne_session).
Qed.

(** X11.  [addToHistory] on a session in memory, Redis connected: the entry
    gets a fresh uuid, the caller's timestamp unless it is absent or 0 (then
    the current time), and the session's language and voice where the caller
    gave none; it is put in front of the stored list, which is cut to 100;
    the object in memory and its copy in Redis then carry that list. *)
Theorem addToHistory_appends w sid r s entry :
  activeSessions w !! sid = Some r →
  heap w !! r = Some s →
  CacheService.connected (cacheService w) = true →
  CacheService.history_ok sid (cacheService w) →
  ∃ h w' s',
    addToHistory sid entry w = (Ok h, w') ∧
    HistoryEntry.id h = Env.uuids (env w) (Env.drawn (env w)) ∧
    HistoryEntry.timestamp h
    = match EntryInput.timestamp entry with
      | Some v => if (v =? 0)%Z then Env.clock (env w) (Env.ticks (env w)) else v
      | None => Env.clock (env w) (Env.ticks (env w))
      end ∧
    HistoryEntry.language h
    = JS.or_string (EntryInput.language entry) (Session.language s) ∧
    HistoryEntry.voice h
    = JS.or_string (EntryInput.voice entry) (Session.voice s) ∧
    CacheService.getSessionHistory sid (cacheService w')
    = take 100 (h :: CacheService.getSessionHistory sid (cacheService w)) ∧
    heap w' !! r = Some s' ∧
    Session.history s' = CacheService.getSessionHistory sid (cacheService w') ∧
    CacheService.getSession sid (cacheService w') = Some s'.
Proof.
  destruct w as [c h n a rs e]. cbn. intros Ha Hh Hc Hok.
  exec_h. rewrite Ha. exec_h.
  destruct (EntryInput.timestamp entry) as [v|]; [destruct (v =? 0)%Z|];
    exec_h; rewrite Hh; exec_h.
  all: match goal with
       | |- context [CacheService.addToSessionHistory ?i ?e ?c0] =>
           destruct (CacheFacts.addToSessionHistory_connected i e c0 Hc Hok)
             as (_ & Hc1 & _ & Hh1);
           destruct (CacheService.addToSessionHistory i e c0) as [ok [conn1 m1]]
       end.
  all: cbn in Hc1, Hh1; subst conn1; exec_h; rewrite ?Hh; exec_h.
  all: eexists _, _, _; split; [reflexivity|].
  all: do 4 (split; [reflexivity|]).
  all: proj_world; rewrite getSessionHistory_insert_session.
  all: split; [exact Hh1|].
  all: split; [by exec_h|].
  all: split; [reflexivity|].
  all: unfold CacheService.getSession, CacheService.get; cbn;
    by rewrite lookup_insert_eq.
Qed.

Lemma addToHistory_appends_witness :
  ∃ h w' s',
    addToHistory "uuid-0" (Samples.entry "one") (Samples.joined true) = (Ok h, w') ∧
    HistoryEntry.id h = Env.uuids Samples.env 1 ∧
    CacheService.getSessionHistory "uuid-0" (cacheService w') = [h] ∧
    heap w' !! 1 = Some s' ∧
    Session.history s' = [h].
Proof.
  destruct (addToHistory_appends (Samples.joined true) "uuid-0" 1
              Scenarios.joined_session (Samples.entry "one")
              ltac:(vm_compute; reflexivity) ltac:(vm_compute; reflexivity)
              eq_refl ltac:(intros v ttl; vm_compute; discriminate))
    as (h & w' & s' & Hrun & Hid & Hts & Hlang & _ & Hstored & Hheap & Hhist & _).
  exists h, w', s'. split; [exact Hrun|]. split; [exact Hid|].
  split; [exact Hstored|]. split; [exact Hheap|].
  rewrite Hhist. exact Hstored.
Defined.

Lemma slice_zero {A} (l : list A) : JS.slice (- 0) l = l.
Proof. unfold JS.slice. simpl. by rewrite Z.min_l by lia. Qed.

(** X12.  The [limit] of a history read: 0 returns the whole stored list, an
    omitted limit is 50, a limit of at least the size of the list returns the
    whole list, and a negative limit [-n] drops the first [n] entries of the
    stored list; the read never changes the state. *)
Theorem getSessionHistory_limit_edges sid w :
  let stored := CacheService.getSessionHistory sid (cacheService w) in
  getSessionHistory sid (Some 0%Z) w = (Ok stored, w) ∧
  getSessionHistory sid None w = getSessionHistory sid (Some 50%Z) w ∧
  (∀ n, length stored ≤ n →
        getSessionHistory sid (Some (Z.of_nat n)) w = (Ok stored, w)) ∧
  (∀ n, getSessionHistory sid (Some (- Z.of_nat n)%Z) w
        = (Ok (drop n stored), w)).
Proof.
  intros stored. split; [|split; [|split]].
  - rewrite getSessionHistory_read. fold stored. by rewrite slice_zero.
  - reflexivity.
  - intros n Hn. rewrite getSessionHistory_read. fold stored.
    do 2 f_equal. unfold JS.slice, default, from_option, id.
    destruct (Z.ltb_spec (- Z.of_nat n) 0).
    + rewrite Z.max_r by lia. done.
    + rewrite Z.min_l by lia. replace n with 0 by lia. done.
  - intros n. rewrite getSessionHistory_read. fold stored.
    do 2 f_equal. unfold JS.slice, default, from_option, id.
    rewrite Z.opp_involutive.
    destruct (Z.ltb_spec (Z.of_nat n) 0); [lia|].
    destruct (decide (n ≤ length stored)).
    + rewrite Z.min_l by lia. by rewrite Nat2Z.id.
    + rewrite Z.min_r by lia. rewrite Nat2Z.id.
      rewrite !drop_ge; [done|lia|lia].
Qed.

Lemma startRecording_data sid w r w1 :
  startRecording sid w = (Ok r, w1) →
  recording_data sid (Env.clock (env w) (Env.ticks (env w))) [] w1.
Proof.
  intros H. destruct (startRecording_opens _ _ _ _ H) as [(r0 & s & d & H1 & H2 & H3 & H4 & H5) _].
  exists r0, s, d. repeat split; try done. by destruct d.
Qed.

Lemma addRecordingData_data sid d t0 ps w :
  recording_data sid t0 ps w →
  ∃ w', addRecordingData sid d w = (Ok tt, w') ∧
        recording_data sid t0 (ps ++ [d]) w'.
Proof.
  intros (r & s & ds & Ha & Hh & Ht & Hr & Hn).
  destruct w as [c h nx a rs e]. cbn in *.
  exec. rewrite Hr. exec.
  eexists; split; [reflexivity|].
  exists r, s, (ds ++ [RawPoint.mk (Env.clock e (Env.ticks e)) d]).
  exec. rewrite map_app, Hn. done.
Qed.

Lemma addRecordingData_all_data sid ds : ∀ t0 ps w,
  recording_data sid t0 ps w →
  ∃ w', addRecordingData_all sid ds w = (Ok tt, w') ∧
        recording_data sid t0 (ps ++ ds) w'.
Proof.
  induction ds as [|d ds IH]; intros t0 ps w Hopen.
  - exists w. cbn. by rewrite app_nil_r.
  - destruct (addRecordingData_data sid d t0 ps w Hopen) as (w1 & Hrun & Ho1).
    destruct (IH t0 (ps ++ [d]) w1 Ho1) as (w2 & Hrun2 & Ho2).
    exists w2. cbn [addRecordingData_all]. unfold bind. rewrite Hrun.
    split; [exact Hrun2|]. by rewrite <- app_assoc in Ho2.
Qed.

Lemma startRecording_state sid w r w1 :
  startRecording sid w = (Ok r, w1) →
  activeSessions w1 !! sid = Some r ∧
  ∃ s, heap w1 !! r = Some s ∧ Session.isRecording s = true.
Proof.
  destruct w as [[conn m] h n a rs e].
  unfold startRecording, getSession, activeSessions_get, bind. cbn.
  destruct (a !! sid) as [r0|] eqn:Ha; cbn.
  - unfold update_object at 1. cbn.
    destruct (h !! r0) as [s|] eqn:Hh; [|discriminate].
    destruct conn; exec; exec_cache; intros [= <- <-].
    all: exec; split; [by rewrite ?lookup_insert_eq|].
    all: eexists; split; [rewrite ?lookup_insert_eq; reflexivity|done].
  - unfold cacheService_getSession, cache_read, bind. cbn.
    destruct (CacheService.getSession sid _) as [s0|] eqn:Hs; [|discriminate].
    destruct conn; exec; exec_cache; intros [= <- <-].
    all: exec; split; [by rewrite ?lookup_insert_eq|].
    all: eexists; split; [rewrite ?lookup_insert_eq; reflexivity|done].
Qed.

Lemma stopRecording_closes sid t0 ps w :
  recording_data sid t0 ps w →
  ∃ rec w' r s s',
    stopRecording sid w = (Ok rec, w') ∧
    Recording.sessionId rec = sid ∧
    map RawPoint.data (Recording.data rec) = ps ∧
    activeSessions w !! sid = Some r ∧ heap w !! r = Some s ∧
    activeSessions w' !! sid = Some r ∧ heap w' !! r = Some s' ∧
    Session.isRecording s' = false ∧
    Session.recordings s'
    = Some (default [] (Session.recordings s) ++ [Recording.id rec]) ∧
    recordingSessions w' !! sid = None ∧
    stopRecording sid w' = (Throw "Session or recording not found", w') ∧
    ∀ d, addRecordingData sid d w' = (Ok tt, w').
Proof.
  intros (r & s & ds & Ha & Hh & Ht & Hr & Hn).
  destruct w as [[conn m] h nx a rs e]. cbn in *.
  exec. rewrite Ha. exec. rewrite Hr. exec. rewrite Hh. exec.
  exec_cache. rewrite Ht. destruct conn; exec.
  all: eexists _, _, r, s, _; split; [reflexivity|]; exec.
  all: do 9 (split; [done|]).
  all: split; [|intros d]; exec; done.
Qed.

(** X13.  When a recording that was started is stopped, the session is no
    longer recording, the id of the new recording is appended to the
    session's [recordings], a second [stopRecording] throws 'Session or
    recording not found', and raw data arriving afterwards is ignored. *)
Theorem recording_closed_after_stop w sid r w1 :
  startRecording sid w = (Ok r, w1) →
  ∃ rec w2 s1 s2,
    stopRecording sid w1 = (Ok rec, w2) ∧
    heap w1 !! r = Some s1 ∧ Session.isRecording s1 = true ∧
    heap w2 !! r = Some s2 ∧ Session.isRecording s2 = false ∧
    Session.recordings s2
    = Some (default [] (Session.recordings s1) ++ [Recording.id rec]) ∧
    stopRecording sid w2 = (Throw "Session or recording not found", w2) ∧
    ∀ d, addRecordingData sid d w2 = (Ok tt, w2).
Proof.
  intros Hstart.
  destruct (startRecording_state _ _ _ _ Hstart) as (Hmem & s1 & Hs1 & Hrec).
  destruct (stopRecording_closes _ _ _ _ (startRecording_data _ _ _ _ Hstart))
    as (rec & w2 & r' & s' & s2 & Hstop & _ & _ & Hmem' & Hs' & _ & Hs2 & Hoff
        & Hlist & _ & Hagain & Hdata).
  assert (r' = r) as -> by congruence.
  assert (s' = s1) as -> by congruence.
  by exists rec, w2, s1, s2.
Qed.

Lemma recording_closed_after_stop_witness :
  ∃ rec w2,
    stopRecording "uuid-0" (startRecording "uuid-0" (Samples.joined true)).2
    = (Ok rec, w2) ∧
    stopRecording "uuid-0" w2 = (Throw "Session or recording not found", w2) ∧
    addRecordingData "uuid-0" "late" w2 = (Ok tt, w2).
Proof.
  destruct (recording_closed_after_stop (Samples.joined true) "uuid-0" 1
              (startRecording "uuid-0" (Samples.joined true)).2
              ltac:(vm_compute; reflexivity))
    as (rec & w2 & s1 & s2 & Hstop & _ & _ & _ & _ & _ & Hagain & Hdata).
  exists rec, w2. split; [exact Hstop|]. split; [exact Hagain|].
  exact (Hdata "late").
Defined.

(** X14.  The raw data given to [addRecordingData] between [startRecording]
    and [stopRecording] is what the recording holds, each payload once and in
    the order of arrival, and the recording names its session. *)
Theorem recording_data_in_order w sid r w1 ds :
  startRecording sid w = (Ok r, w1) →
  ∃ w2 rec w3,
    addRecordingData_all sid ds w1 = (Ok tt, w2) ∧
    stopRecording sid w2 = (Ok rec, w3) ∧
    Recording.sessionId rec = sid ∧
    map RawPoint.data (Recording.data rec) = ds.
Proof.
  intros Hstart.
  destruct (addRecordingData_all_data sid ds _ _ _
              (startRecording_data _ _ _ _ Hstart)) as (w2 & Hrun & Hdata).
  destruct (stopRecording_closes _ _ _ _ Hdata)
    as (rec & w3 & _ & _ & _ & Hstop & Hsid & Hps & _).
  by exists w2, rec, w3.
Qed.

Lemma recording_data_in_order_witness :
  ∃ w2 rec w3,
    addRecordingData_all "uuid-0" ["a"; "b"; "c"]
      (startRecording "uuid-0" (Samples.joined true)).2 = (Ok tt, w2) ∧
    stopRecording "uuid-0" w2 = (Ok rec, w3) ∧
    Recording.sessionId rec = "uuid-0" ∧
    map RawPoint.data (Recording.data rec) = ["a"; "b"; "c"].
Proof.
  apply (recording_data_in_order (Samples.joined true) "uuid-0" 1
           (startRecording "uuid-0" (Samples.joined true)).2 ["a"; "b"; "c"]).
  vm_compute. reflexivity.
Defined.

Lemma del_recordings_connected ids : ∀ w m,
  cacheService w = CacheService.mk true m →
  del_recordings ids w
  = (Ok tt, with_cacheService (CacheService.mk true (without_recordings ids m)) w).
Proof.
  induction ids as [|id ids IH]; intros w m Hc.
  - cbn. unfold ret. destruct w. cbn in *. by subst.
  - cbn [del_recordings]. unfold bind, cache_call, CacheService.del.
    rewrite Hc. cbn.
    rewrite (IH _ (delete ("recording:" +:+ id) m)) by reflexivity.
    by destruct w.
Qed.

Lemma without_recordings_gone ids : ∀ m k,
  m !! k = None → without_recordings ids m !! k = None.
Proof.
  induction ids as [|id ids IH]; intros m k Hk; [exact Hk|].
  cbn. apply IH. rewrite lookup_delete_None. by right.
Qed.

Lemma without_recordings_elem ids : ∀ m id,
  id ∈ ids → without_recordings ids m !! ("recording:" +:+ id) = None.
Proof.
  induction ids as [|i ids IH]; intros m id Hin.
  - by apply elem_of_nil in Hin.
  - cbn. destruct (decide (id = i)) as [->|Hne].
    + apply without_recordings_gone, lookup_delete_eq.
    + apply IH. apply elem_of_cons in Hin as [?|?]; [done|done].
Qed.

Lemma recording_key_ne_history a b : "recording:" +:+ a ≠ "history:" +:+ b.
Proof. done. Qed.

(** X15.  [deleteSession] on a session in memory, Redis connected, returns
    true and removes the session from memory and from Redis together with its
    history list, its recording state and every recording listed in the
    session: afterwards [getSession] and [getRecording] find nothing. *)
Theorem deleteSession_removes_everything w sid r s :
  activeSessions w !! sid = Some r →
  heap w !! r = Some s →
  CacheService.connected (cacheService w) = true →
  ∃ w',
    deleteSession sid w = (Ok true, w') ∧
    getSession sid w' = (Ok None, w') ∧
    recordingSessions w' !! sid = None ∧
    CacheService.getSessionHistory sid (cacheService w') = [] ∧
    ∀ id, id ∈ default [] (Session.recordings s) →
          getRecording id w' = (Ok None, w').
Proof.
  destruct w as [[conn m] h n a rs e]. cbn. intros Ha Hh ->.
  unfold deleteSession, getSession, activeSessions_get, bind. cbn.
  rewrite Ha. cbn. unfold read_object at 1. cbn. rewrite Hh. cbn.
  rewrite (del_recordings_connected _ _ m) by reflexivity.
  exec. exec_cache.
  eexists. split; [reflexivity|].
  split; [|split; [|split]].
  - exec. exec_cache.
    rewrite lookup_delete_ne by apply history_key_ne_session.
    by rewrite lookup_delete_eq.
  - by exec.
  - by exec.
  - intros id Hid. exec. exec_cache.
    rewrite lookup_delete_ne by (symmetry; apply recording_key_ne_history).
    rewrite lookup_delete_ne by (symmetry; apply recording_key_ne_session).
    by rewrite without_recordings_elem.
Qed.

Lemma deleteSession_removes_everything_witness :
  ∃ w',
    deleteSession "uuid-0" (Samples.joined true) = (Ok true, w') ∧
    getSession "uuid-0" w' = (Ok None, w') ∧
    CacheService.getSessionHistory "uuid-0" (cacheService w') = [].
Proof.
  destruct (deleteSession_removes_everything (Samples.joined true) "uuid-0" 1
              Scenarios.joined_session
              ltac:(vm_compute; reflexivity) ltac:(vm_compute; reflexivity)
              eq_refl)
    as (w' & Hrun & Hget & _ & Hhist & _).
  exists w'. split; [exact Hrun|]. split; [exact Hget|exact Hhist].
Defined.

(** X16.  [leaveSession] of a participant while others remain: exactly that
    participant is removed from the session loaded from Redis, [lastActivity]
    becomes the current time, the result is cached and written back, and the
    recording state is not touched. *)
Theorem leaveSession_keeps_others w sid pid s0 :
  CacheService.getSession sid (cacheService w) = Some s0 →
  filter (fun id => id ≠ pid) (Session.participants s0) ≠ [] →
  let s' := Session.with_lastActivity (Env.clock (env w) (Env.ticks (env w)))
              (Session.with_participants
                 (filter (fun id => id ≠ pid) (Session.participants s0)) s0) in
  ∃ w' r,
    leaveSession sid pid w = (Ok tt, w') ∧
    activeSessions w' !! sid = Some r ∧
    heap w' !! r = Some s' ∧
    CacheService.getSession sid (cacheService w') = Some s' ∧
    recordingSessions w' = recordingSessions w.
Proof.
  destruct w as [[conn m] h n a rs e]. cbn. intros Hs Hf.
  unfold leaveSession, cacheService_getSession, cache_read, bind. cbn.
  rewrite Hs. exec.
  destruct (filter _ _) as [|p ps] eqn:Hfl; [done|]. cbn.
  assert (conn = true) as ->.
  { destruct conn; [done|]. by exec_cache. }
  exec. exec_cache.
  eexists _, _. split; [reflexivity|]. by exec.
Qed.

Lemma leaveSession_keeps_others_witness :
  ∃ w' r s',
    leaveSession "uuid-0" "p2" (Samples.joined true) = (Ok tt, w') ∧
    activeSessions w' !! "uuid-0" = Some r ∧
    heap w' !! r = Some s' ∧
    Session.participants s' = ["p1"] ∧
    CacheService.getSession "uuid-0" (cacheService w') = Some s'.
Proof.
  destruct (leaveSession_keeps_others (Samples.joined true) "uuid-0" "p2"
              Scenarios.joined_session ltac:(vm_compute; reflexivity)
              ltac:(vm_compute; discriminate))
    as (w' & r & Hrun & Hmem & Hheap & Hstore & _).
  exists w', r. eexists. split; [exact Hrun|]. split; [exact Hmem|].
  split; [exact Hheap|]. split; [vm_compute; reflexivity|exact Hstore].
Defined.

Lemma joinSession_stored_run w sid pid options s0 :
  CacheService.getSession sid (cacheService w) = Some s0 →
  let s' :=
    Session.with_history (CacheService.getSessionHistory sid (cacheService w))
      (Session.with_lastActivity (Env.clock (env w) (Env.ticks (env w)))
         (Session.with_voice
            (JS.or_string (Options.voice options) (Session.voice s0))
            (Session.with_language
               (JS.or_string (Options.language options) (Session.language s0))
               (Session.with_participants
                  (if decide (pid ∈ Session.participants s0)
                   then Session.participants s0
                   else Session.participants s0 ++ [pid]) s0)))) in
  ∃ w',
    joinSession sid pid options w = (Ok (nextRef w), w') ∧
    heap w' !! nextRef w = Some s' ∧
    activeSessions w' !! sid = Some (nextRef w) ∧
    CacheService.getSession sid (cacheService w') = Some s'.
Proof.
  destruct w as [[conn m] h n a rs e]. cbn. intros Hs.
  assert (conn = true) as ->.
  { destruct conn; [done|]. by exec_cache. }
  unfold joinSession, cacheService_getSession, cache_read, bind. cbn.
  rewrite Hs.
  destruct s0 as [i ca la ps l v hi ir rd st rs1 re rdur recs].
  destruct options as [[ol|] [ov|] oa ove os]; exec_h;
    repeat (first [case_decide|case_bool_decide]; exec_h); try done.
  all: eexists; split; [reflexivity|]; exec_h.
  all: unfold CacheService.getSession, CacheService.get; cbn;
    rewrite ?lookup_insert_eq; try done.
Qed.

(** X17.  [joinSession] on a session that Redis holds: the session is read
    from Redis (not from memory) into a new object; the participant is added
    at the end unless already listed; a non-empty language or voice of the
    options replaces the session's; [lastActivity] is the current time and
    [history] the stored list; the object is cached and written back. *)
Theorem joinSession_existing w sid pid options s0 :
  CacheService.getSession sid (cacheService w) = Some s0 →
  ∃ w' s',
    joinSession sid pid options w = (Ok (nextRef w), w') ∧
    heap w' !! nextRef w = Some s' ∧
    activeSessions w' !! sid = Some (nextRef w) ∧
    CacheService.getSession sid (cacheService w') = Some s' ∧
    Session.participants s'
    = (if decide (pid ∈ Session.participants s0)
       then Session.participants s0
       else Session.participants s0 ++ [pid]) ∧
    Session.language s'
    = JS.or_string (Options.language options) (Session.language s0) ∧
    Session.voice s'
    = JS.or_string (Options.voice options) (Session.voice s0) ∧
    Session.lastActivity s' = Env.clock (env w) (Env.ticks (env w)) ∧
    Session.history s' = CacheService.getSessionHistory sid (cacheService w).
Proof.
  intros Hs.
  destruct (joinSession_stored_run w sid pid options s0 Hs)
    as (w' & Hrun & Hheap & Hmem & Hstore).
  eexists w', _. repeat split; try eassumption; reflexivity.
Qed.

Lemma joinSession_existing_witness :
  ∃ w' s',
    joinSession "uuid-0" "p2" Options.empty (Samples.joined true)
    = (Ok (nextRef (Samples.joined true)), w') ∧
    heap w' !! nextRef (Samples.joined true) = Some s' ∧
    Session.participants s' = ["p1"; "p2"] ∧
    CacheService.getSession "uuid-0" (cacheService w') = Some s'.
Proof.
  destruct (joinSession_existing (Samples.joined true) "uuid-0" "p2"
              Options.empty Scenarios.joined_session
              ltac:(vm_compute; reflexivity))
    as (w' & s' & Hrun & Hheap & _ & Hstore & Hps & _).
  exists w', s'. split; [exact Hrun|]. split; [exact Hheap|].
  split; [|exact Hstore]. rewrite Hps. vm_compute. reflexivity.
Defined.

(** X18.  Joining is idempotent on the participant list: a participant who
    joins a session of Redis twice is listed once, and a list without
    duplicates stays without duplicates. *)
Theorem joinSession_twice w sid pid options s0 :
  CacheService.getSession sid (cacheService w) = Some s0 →
  ∃ r1 w1 s1 r2 w2 s2,
    joinSession sid pid options w = (Ok r1, w1) ∧ heap w1 !! r1 = Some s1 ∧
    joinSession sid pid options w1 = (Ok r2, w2) ∧ heap w2 !! r2 = Some s2 ∧
    pid ∈ Session.participants s1 ∧
    Session.participants s2 = Session.participants s1 ∧
    (NoDup (Session.participants s0) → NoDup (Session.participants s2)).
Proof.
  intros Hs.
  destruct (joinSession_stored_run w sid pid options s0 Hs)
    as (w1 & Hrun1 & Hheap1 & _ & Hstore1).
  destruct (joinSession_stored_run w1 sid pid options _ Hstore1)
    as (w2 & Hrun2 & Hheap2 & _ & _).
  eexists _, w1, _, _, w2, _.
  split; [exact Hrun1|]. split; [exact Hheap1|].
  split; [exact Hrun2|]. split; [exact Hheap2|].
  cbn [Session.participants Session.with_history Session.with_lastActivity
       Session.with_voice Session.with_language Session.with_participants].
  assert (pid ∈ (if decide (pid ∈ Session.participants s0)
                 then Session.participants s0
                 else Session.participants s0 ++ [pid])) as Hin.
  { case_decide; [done|]. apply elem_of_app. right. by apply list_elem_of_singleton. }
  split; [exact Hin|]. split.
  - by rewrite decide_True.
  - intros Hnd. rewrite decide_True by done. case_decide; [done|].
    apply NoDup_app. split; [done|]. split.
    + intros x Hx Hx'. apply list_elem_of_singleton in Hx'. by subst.
    + apply NoDup_singleton.
Qed.

Lemma joinSession_twice_witness :
  ∃ r1 w1 s1 r2 w2 s2,
    joinSession "uuid-0" "p2" Options.empty (Samples.joined true) = (Ok r1, w1) ∧
    heap w1 !! r1 = Some s1 ∧
    joinSession "uuid-0" "p2" Options.empty w1 = (Ok r2, w2) ∧
    heap w2 !! r2 = Some s2 ∧
    "p2" ∈ Session.participants s1 ∧
    Session.participants s2 = Session.participants s1 ∧
    (NoDup (Session.participants Scenarios.joined_session) →
     NoDup (Session.participants s2)).
Proof.
  apply (joinSession_twice (Samples.joined true) "uuid-0" "p2" Options.empty
           Scenarios.joined_session).
  vm_compute. reflexivity.
Defined.

(** The state after a join that had to create the session: one object, under
    two keys in memory; in Redis the joined session under the requested id
    and the session as created, without participant, under its own id. *)
Lemma joinSession_creates w sid pid language voice :
  CacheService.getSession sid (cacheService w) = None →
  Env.uuids (env w) (Env.drawn (env w)) ≠ sid →
  ∃ w' s,
    joinSession sid pid (Options.mk (Some language) (Some voice) None None None) w
    = (Ok (nextRef w), w') ∧
    heap w' !! nextRef w = Some s ∧
    Session.id s = Env.uuids (env w) (Env.drawn (env w)) ∧
    Session.participants s = [pid] ∧
    activeSessions w' !! sid = Some (nextRef w) ∧
    recordingSessions w' = recordingSessions w ∧
    CacheService.connected (cacheService w')
    = CacheService.connected (cacheService w) ∧
    nextRef w' = S (nextRef w) ∧
    (CacheService.connected (cacheService w) = true →
     ∃ s0, CacheService.getSession sid (cacheService w') = Some s ∧
           CacheService.getSession (Session.id s) (cacheService w') = Some s0 ∧
           Session.participants s0 = []).
Proof.
  destruct w as [[conn m] h n a rs e]. cbn. intros Hnone Hne.
  unfold joinSession, cacheService_getSession, cache_read, bind. cbn.
  rewrite Hnone.
  destruct conn; exec; exec_cache;
    rewrite ?(bool_decide_eq_false_2 _ (not_elem_of_nil pid));
    exec; repeat (case_decide; exec).
  all: eexists _, _; split; [reflexivity|].
  all: do 7 (split; [by exec|]).
  all: intros Hc; try discriminate.
  all: eexists; exec; split; [done|].
  all: rewrite lookup_insert_ne
      by (intros Hkey; apply CacheMore.session_key_inj in Hkey; congruence).
  all: rewrite lookup_insert_eq; done.
Qed.

(** The state after the last participant left. *)
Lemma leaveSession_last_effect w sid pid s0 :
  CacheService.getSession sid (cacheService w) = Some s0 →
  filter (fun id => id ≠ pid) (Session.participants s0) = [] →
  ∃ w',
    leaveSession sid pid w = (Ok tt, w') ∧
    activeSessions w' = delete sid (activeSessions w) ∧
    recordingSessions w' = delete sid (recordingSessions w) ∧
    CacheService.getSession sid (cacheService w') = None ∧
    (∀ k, k ≠ sid →
          CacheService.getSession k (cacheService w')
          = CacheService.getSession k (cacheService w)) ∧
    (∀ r, r ≠ nextRef w → heap w' !! r = heap w !! r).
Proof.
  destruct w as [[conn m] h n a rs e]. cbn. intros Hs Hf.
  unfold leaveSession, cacheService_getSession, cache_read, bind. cbn.
  rewrite Hs. exec. rewrite Hf. cbn.
  assert (conn = true) as ->.
  { destruct conn; [done|]. by exec_cache. }
  exec_cache. eexists; split; [reflexivity|]. exec.
  do 3 (split; [done|]). split.
  - intros k Hk.
    rewrite lookup_delete_ne
      by (intros Hkey; apply CacheMore.session_key_inj in Hkey; congruence).
    done.
  - intros r Hr. by rewrite !lookup_insert_ne.
Qed.

End ManagerMore.

(** ** SessionManager.cleanupInactiveSessions *)

Module SweepFacts.
Import SessionManager ManagerFacts SessionSweep.

Lemma leaveSession_system_keeps sid p sid' w :
  p ≠ "system" →
  stored_with sid p w →
  stored_with sid p (leaveSession sid' "system" w).2.
Proof.
  intros Hp (s & ttl & Hl & Hin).
  destruct w as [[conn m] h n a rs e]. cbn in Hl.
  unfold leaveSession, cacheService_getSession, cache_read, bind.
  cbn -[CacheService.getSession].
  destruct (CacheService.getSession sid' _) as [s0|] eqn:Hs0; cbn -[CacheService.getSession].
  2: { by exists s, ttl. }
  assert (conn = true) as ->.
  { destruct conn; [done|]. by exec_cache. }
  exec.
  destruct (decide (sid' = sid)) as [->|Hne].
  - assert (s0 = s) as ->.
    { revert Hs0. unfold CacheService.getSession, CacheService.get. cbn.
      rewrite Hl. by intros [= ->]. }
    assert (p ∈ filter (λ id : string, id ≠ "system") (Session.participants s))
      as Hf by (by apply list_elem_of_filter).
    destruct (filter _ _) as [|q qs] eqn:Hfl; [by apply elem_of_nil in Hf|].
    exec. exec_cache. eexists _, _. cbn. rewrite lookup_insert_eq.
    split; [reflexivity|]. exact Hf.
  - destruct (length _ =? 0); exec; exec_cache; exists s, ttl; cbn.
    + rewrite lookup_delete_ne; [done|]. intros H. by apply CacheMore.session_key_inj in H.
    + rewrite lookup_insert_ne; [done|]. intros H. by apply CacheMore.session_key_inj in H.
Qed.

Lemma cleanup_loop_keeps sid p now entries : ∀ w,
  p ≠ "system" →
  stored_with sid p w →
  stored_with sid p (cleanup_loop now entries w).2.
Proof.
  induction entries as [|[sid' r] entries IH]; intros w Hp Hst; [exact Hst|].
  cbn [cleanup_loop]. unfold bind, read_object.
  destruct (heap w !! r) as [s|]; [|exact Hst].
  destruct (30 * 60 * 1000 <? now - Session.lastActivity s)%Z.
  - pose proof (leaveSession_system_keeps sid p sid' w Hp Hst) as H1.
    destruct (leaveSession sid' "system" w) as [[[]|msg] w1]; cbn in H1.
    + by apply IH.
    + exact H1.
  - unfold ret. by apply IH.
Qed.

(** X19.  [cleanupInactiveSessions] never removes from Redis a session that
    lists a participant other than 'system', however long it has been
    inactive and in whatever order the sessions are visited: the sweep leaves
    with the participant id 'system', so a real participant stays listed. *)
Theorem cleanupInactiveSessions_keeps_joined w sid p :
  p ≠ "system" →
  stored_with sid p w →
  stored_with sid p (cleanupInactiveSessions w).2 ∧
  ∀ now entries, stored_with sid p (cleanup_loop now entries w).2.
Proof.
  intros Hp Hst. split; [|intros; by apply cleanup_loop_keeps].
  unfold cleanupInactiveSessions, bind, Date_now.
  destruct w as [c h n a rs e]. cbn.
  apply cleanup_loop_keeps; [done|]. exact Hst.
Qed.

Lemma cleanupInactiveSessions_keeps_joined_witness :
  stored_with "uuid-0" "p1" (cleanupInactiveSessions (Samples.joined true)).2.
Proof.
  refine (proj1 (cleanupInactiveSessions_keeps_joined (Samples.joined true)
                   "uuid-0" "p1" _ _)).
  - discriminate.
  - exists Scenarios.joined_session, 3600%Z. split.
    + vm_compute. reflexivity.
    + vm_compute. left.
Defined.

End SweepFacts.

(** ** The socket handlers *)

Module ServerFacts.
Import SessionManager ManagerFacts ManagerState Server.

Ltac live :=
  cbn [geminiLive sessionManager currentSession id sent
       GeminiLiveService.openSession GeminiLiveService.closeSession
       GeminiLiveService.emit GeminiLiveService.sessions
       GeminiLiveService.outstanding GeminiLiveService.emitted].

Lemma filter_none {A} (P : A → Prop) `{∀ x, Decision (P x)} (l : list A) :
  (∀ x, x ∈ l → ¬ P x) → filter P l = [].
Proof.
  induction l as [|a l IH]; [done|]. intros Hall.
  rewrite filter_cons, decide_False by (apply Hall; left).
  apply IH. intros x Hx. apply Hall. by right.
Qed.

Lemma on_join_session_run sid language voice socket srv r m s :
  joinSession sid (id socket)
    (Options.mk (Some (default "en" language)) (Some (default "male" voice))
                None None None) (sessionManager srv) = (Ok r, m) →
  heap m !! r = Some s →
  on_join_session sid language voice socket srv
  = (emit (session_joined sid (default "en" language) (default "male" voice)
                          (Session.history s))
          (mkSocket (id socket) (Some r) (sent socket)),
     mk m (GeminiLiveService.openSession sid (Some systemInstruction)
             (geminiLive srv))).
Proof.
  intros Hrun Hheap. unfold on_join_session. cbv zeta. rewrite Hrun.
  unfold read_object. by rewrite Hheap.
Qed.

(** X21.  A client that joins an id Redis does not know gets a session with
    a fresh uuid, while the live session is opened under the requested id;
    [sendAudioChunk] looks the live session up under the session's own id,
    so, unless a live session happens to be open under that uuid, an
    [audio-stream] event of this client is dropped: no call is started, no
    error is emitted and nothing changes. *)
Theorem audio_dropped_after_implicit_creation
    sid language voice audioData socket srv :
  let m := sessionManager srv in
  let uuid := Env.uuids (env m) (Env.drawn (env m)) in
  CacheService.getSession sid (cacheService m) = None →
  uuid ≠ sid →
  GeminiLiveService.sessions (geminiLive srv) !! uuid = None →
  ∃ socket1 srv1 r s,
    on_join_session sid language voice socket srv = (socket1, srv1) ∧
    currentSession socket1 = Some r ∧
    heap (sessionManager srv1) !! r = Some s ∧
    Session.id s = uuid ∧
    GeminiLiveService.sessions (geminiLive srv1) !! sid
    = Some (GeminiLiveService.mkLive sid systemInstruction false) ∧
    GeminiLiveService.sessions (geminiLive srv1) !! uuid = None ∧
    on_audio_stream audioData socket1 srv1 = (socket1, srv1).
Proof.
  intros m uuid Hnone Hne Hlive. subst m uuid.
  destruct (ManagerMore.joinSession_creates _ _ (id socket)
              (default "en" language) (default "male" voice) Hnone Hne)
    as (m & s & Hrun & Hheap & Hid & _).
  eexists _, _, _, s.
  split; [exact (on_join_session_run _ _ _ _ _ _ _ _ Hrun Hheap)|].
  split; [reflexivity|]. split; [exact Hheap|]. split; [exact Hid|]. live.
  split; [by rewrite lookup_insert_eq|].
  split; [by rewrite lookup_insert_ne|].
  unfold on_audio_stream, emit. live.
  unfold read_object. rewrite Hheap.
  unfold GeminiLiveService.sendAudioChunk. live.
  rewrite Hid, lookup_insert_ne by done. by rewrite Hlive.
Qed.

(** X22.  When that client disconnects (Redis connected), the handler closes
    the live session and leaves the session under the session's own uuid: the
    live session opened under the requested id stays open, and the session
    stays in memory and in Redis under the requested id, still listing the
    socket as its participant. *)
Theorem disconnect_after_implicit_creation sid language voice socket srv :
  let m := sessionManager srv in
  let uuid := Env.uuids (env m) (Env.drawn (env m)) in
  CacheService.getSession sid (cacheService m) = None →
  uuid ≠ sid →
  CacheService.connected (cacheService m) = true →
  ∃ socket1 srv1 socket2 srv2 r s,
    on_join_session sid language voice socket srv = (socket1, srv1) ∧
    on_disconnect socket1 srv1 = (socket2, srv2) ∧
    GeminiLiveService.sessions (geminiLive srv2) !! sid
    = Some (GeminiLiveService.mkLive sid systemInstruction false) ∧
    activeSessions (sessionManager srv2) !! sid = Some r ∧
    heap (sessionManager srv2) !! r = Some s ∧
    CacheService.getSession sid (cacheService (sessionManager srv2)) = Some s ∧
    Session.participants s = [id socket].
Proof.
  intros m uuid Hnone Hne Hconn. subst m uuid.
  destruct (ManagerMore.joinSession_creates _ _ (id socket)
              (default "en" language) (default "male" voice) Hnone Hne)
    as (m & s & Hrun & Hheap & Hid & Hps & Hmem & _ & _ & Hnext & Hstore).
  destruct (Hstore Hconn) as (s0 & Hsid & Huuid & Hps0).
  destruct (ManagerMore.leaveSession_last_effect m (Session.id s) (id socket)
              s0 Huuid) as (m2 & Hleave & Hact & _ & _ & Hother & Hobj).
  { by rewrite Hps0. }
  eexists _, _, _, _, (nextRef (sessionManager srv)), s.
  split; [exact (on_join_session_run _ _ _ _ _ _ _ _ Hrun Hheap)|].
  unfold on_disconnect, emit. live. unfold read_object at 1. rewrite Hheap.
  rewrite Hleave. split; [reflexivity|]. live.
  rewrite Hid. split; [by rewrite lookup_delete_ne, lookup_insert_eq|].
  rewrite Hact, Hid, lookup_delete_ne by done. split; [exact Hmem|].
  rewrite Hobj by lia. split; [exact Hheap|].
  rewrite Hother by (rewrite Hid; congruence). by split.
Qed.

(** X23.  A client that joins a session stored under its own id and sends
    audio starts exactly one call to the model for that session and sets the
    live session's [responding] flag; a further chunk sent while the flag is
    set changes nothing. *)
Theorem audio_after_join_starts_one_call
    sid language voice chunk chunk' socket srv s0 :
  CacheService.getSession sid (cacheService (sessionManager srv)) = Some s0 →
  Session.id s0 = sid →
  ∃ socket1 srv1 srv2 s,
    on_join_session sid language voice socket srv = (socket1, srv1) ∧
    on_audio_stream chunk socket1 srv1 = (socket1, srv2) ∧
    sessionManager srv2 = sessionManager srv1 ∧
    GeminiLiveService.outstanding (geminiLive srv2)
    = GeminiLiveService.outstanding (geminiLive srv)
      ++ [GeminiLiveService.mkCall "..." s] ∧
    Session.id s = sid ∧
    GeminiLiveService.sessions (geminiLive srv2) !! sid
    = Some (GeminiLiveService.mkLive sid systemInstruction true) ∧
    on_audio_stream chunk' socket1 srv2 = (socket1, srv2).
Proof.
  intros Hs Hid.
  destruct (ManagerMore.joinSession_stored_run (sessionManager srv) sid
              (id socket)
              (Options.mk (Some (default "en" language))
                          (Some (default "male" voice)) None None None) s0 Hs)
    as (m & Hrun & Hheap & _).
  match type of Hheap with _ = Some ?x => set (s := x) in * end.
  assert (Session.id s = sid) as Hsid by exact Hid.
  clearbody s.
  eexists _, _, _, s.
  split; [exact (on_join_session_run _ _ _ _ _ _ _ _ Hrun Hheap)|].
  unfold on_audio_stream, emit. live. unfold read_object. rewrite Hheap.
  unfold GeminiLiveService.sendAudioChunk. live.
  rewrite Hsid, lookup_insert_eq. cbn [GeminiLiveService.responding].
  split; [reflexivity|]. live. rewrite Hheap, Hsid, !lookup_insert_eq.
  cbn [GeminiLiveService.responding].
  by repeat split.
Qed.

(** X24.  When the only participant of a session stored under its own id
    joins and disconnects, the live session is closed and the session is
    removed from memory, from the recording map and from Redis. *)
Theorem disconnect_last_participant sid language voice socket srv s0 :
  CacheService.getSession sid (cacheService (sessionManager srv)) = Some s0 →
  Session.id s0 = sid →
  (∀ p, p ∈ Session.participants s0 → p = id socket) →
  ∃ socket1 srv1 socket2 srv2,
    on_join_session sid language voice socket srv = (socket1, srv1) ∧
    on_disconnect socket1 srv1 = (socket2, srv2) ∧
    GeminiLiveService.sessions (geminiLive srv2) !! sid = None ∧
    activeSessions (sessionManager srv2) !! sid = None ∧
    recordingSessions (sessionManager srv2) !! sid = None ∧
    CacheService.getSession sid (cacheService (sessionManager srv2)) = None.
Proof.
  intros Hs Hid Honly.
  destruct (ManagerMore.joinSession_stored_run (sessionManager srv) sid
              (id socket)
              (Options.mk (Some (default "en" language))
                          (Some (default "male" voice)) None None None) s0 Hs)
    as (m & Hrun & Hheap & _ & Hstore).
  destruct (ManagerMore.leaveSession_last_effect m sid (id socket) _ Hstore)
    as (m2 & Hleave & Hact & Hrec & Hgone & _).
  { cbn [Session.participants Session.with_history Session.with_lastActivity
         Session.with_voice Session.with_language Session.with_participants].
    apply filter_none. intros p Hp Hne. apply Hne. clear Hne.
    case_decide; [by apply Honly|].
    apply elem_of_app in Hp as [Hp|Hp]; [by apply Honly|].
    by apply list_elem_of_singleton in Hp. }
  eexists _, _, _, _.
  split; [exact (on_join_session_run _ _ _ _ _ _ _ _ Hrun Hheap)|].
  unfold on_disconnect, emit. live. unfold read_object at 1. rewrite Hheap.
  cbn [Session.id Session.with_history Session.with_lastActivity
       Session.with_voice Session.with_language Session.with_participants].
  rewrite Hid, Hleave. split; [reflexivity|]. live.
  rewrite Hact, Hrec, !lookup_delete_eq. by repeat split.
Qed.

(** X25.  [join-session] without a language or voice does not keep the
    session's: the defaults 'en' and 'male' are passed on as options and
    replace them in the stored session.  Only an empty string keeps the
    session's value.  The client is sent [session-joined] with the defaults
    and the stored history. *)
Theorem join_defaults_replace_language sid language voice socket srv s0 :
  CacheService.getSession sid (cacheService (sessionManager srv)) = Some s0 →
  ∃ socket1 srv1 s,
    on_join_session sid language voice socket srv = (socket1, srv1) ∧
    CacheService.getSession sid (cacheService (sessionManager srv1)) = Some s ∧
    Session.language s
    = match language with
      | None => "en"
      | Some l => if String.eqb l "" then Session.language s0 else l
      end ∧
    Session.voice s
    = match voice with
      | None => "male"
      | Some v => if String.eqb v "" then Session.voice s0 else v
      end ∧
    last (sent socket1)
    = Some (session_joined sid (default "en" language) (default "male" voice)
              (CacheService.getSessionHistory sid
                 (cacheService (sessionManager srv)))).
Proof.
  intros Hs.
  destruct (ManagerMore.joinSession_stored_run (sessionManager srv) sid
              (id socket)
              (Options.mk (Some (default "en" language))
                          (Some (default "male" voice)) None None None) s0 Hs)
    as (m & Hrun & Hheap & _ & Hstore).
  eexists _, _, _.
  split; [exact (on_join_session_run _ _ _ _ _ _ _ _ Hrun Hheap)|].
  live. split; [exact Hstore|].
  cbn [Session.language Session.voice Session.history Session.with_history
       Session.with_lastActivity Session.with_voice Session.with_language
       Session.with_participants Options.language Options.voice].
  split; [|split].
  - destruct language as [[|a l]|]; reflexivity.
  - destruct voice as [[|a l]|]; reflexivity.
  - unfold emit. live. by rewrite last_snoc.
Qed.


Lemma audio_dropped_after_implicit_creation_witness :
  ∃ socket1 srv1,
    on_join_session "room-1" None None (connect "sock-1")
      (Scenarios.server (Samples.fresh true)) = (socket1, srv1) ∧
    on_audio_stream "chunk" socket1 srv1 = (socket1, srv1).
Proof.
  destruct (audio_dropped_after_implicit_creation "room-1" None None "chunk"
              (connect "sock-1") (Scenarios.server (Samples.fresh true))
              ltac:(vm_compute; reflexivity) ltac:(vm_compute; discriminate)
              ltac:(vm_compute; reflexivity))
    as (socket1 & srv1 & r & s & Hjoin & _ & _ & _ & _ & _ & Haudio).
  exists socket1, srv1. split; [exact Hjoin|exact Haudio].
Defined.

Lemma disconnect_after_implicit_creation_witness :
  ∃ socket1 srv1 socket2 srv2 s,
    on_join_session "room-1" None None (connect "sock-1")
      (Scenarios.server (Samples.fresh true)) = (socket1, srv1) ∧
    on_disconnect socket1 srv1 = (socket2, srv2) ∧
    CacheService.getSession "room-1" (cacheService (sessionManager srv2))
    = Some s ∧
    Session.participants s = ["sock-1"].
Proof.
  destruct (disconnect_after_implicit_creation "room-1" None None
              (connect "sock-1") (Scenarios.server (Samples.fresh true))
              ltac:(vm_compute; reflexivity) ltac:(vm_compute; discriminate)
              ltac:(vm_compute; reflexivity))
    as (socket1 & srv1 & socket2 & srv2 & r & s & Hjoin & Hleft & _ & _ & _
        & Hstore & Hps).
  exists socket1, srv1, socket2, srv2, s.
  split; [exact Hjoin|]. split; [exact Hleft|]. split; [exact Hstore|exact Hps].
Defined.

Lemma audio_after_join_starts_one_call_witness :
  ∃ socket1 srv1 srv2,
    on_join_session "uuid-0" None None (connect "sock-1")
      (Scenarios.server Scenarios.created) = (socket1, srv1) ∧
    on_audio_stream "chunk" socket1 srv1 = (socket1, srv2) ∧
    GeminiLiveService.sessions (geminiLive srv2) !! "uuid-0"
    = Some (GeminiLiveService.mkLive "uuid-0" systemInstruction true) ∧
    on_audio_stream "next" socket1 srv2 = (socket1, srv2).
Proof.
  destruct (audio_after_join_starts_one_call "uuid-0" None None "chunk" "next"
              (connect "sock-1") (Scenarios.server Scenarios.created)
              Scenarios.created_session
              ltac:(vm_compute; reflexivity) eq_refl)
    as (socket1 & srv1 & srv2 & s & Hjoin & Haudio & _ & _ & _ & Hlive & Hnext).
  exists socket1, srv1, srv2.
  split; [exact Hjoin|]. split; [exact Haudio|]. split; [exact Hlive|exact Hnext].
Defined.

Lemma disconnect_last_participant_witness :
  ∃ socket1 srv1 socket2 srv2,
    on_join_session "uuid-0" None None (connect "sock-1")
      (Scenarios.server Scenarios.created) = (socket1, srv1) ∧
    on_disconnect socket1 srv1 = (socket2, srv2) ∧
    CacheService.getSession "uuid-0" (cacheService (sessionManager srv2))
    = None.
Proof.
  destruct (disconnect_last_participant "uuid-0" None None
              (connect "sock-1") (Scenarios.server Scenarios.created)
              Scenarios.created_session
              ltac:(vm_compute; reflexivity) eq_refl
              ltac:(intros p Hp; apply elem_of_nil in Hp; destruct Hp))
    as (socket1 & srv1 & socket2 & srv2 & Hjoin & Hleft & _ & _ & _ & Hstore).
  exists socket1, srv1, socket2, srv2.
  split; [exact Hjoin|]. split; [exact Hleft|exact Hstore].
Defined.

Lemma join_defaults_replace_language_witness :
  ∃ socket1 srv1 s,
    on_join_session "uuid-0" None (Some "") (connect "sock-1")
      (Scenarios.server Scenarios.created) = (socket1, srv1) ∧
    CacheService.getSession "uuid-0" (cacheService (sessionManager srv1))
    = Some s ∧
    Session.language s = "en" ∧
    Session.voice s = Session.voice Scenarios.created_session.
Proof.
  destruct (join_defaults_replace_language "uuid-0" None (Some "")
              (connect "sock-1") (Scenarios.server Scenarios.created)
              Scenarios.created_session ltac:(vm_compute; reflexivity))
    as (socket1 & srv1 & s & Hjoin & Hstore & Hlang & Hvoice & _).
  exists socket1, srv1, s.
  split; [exact Hjoin|]. split; [exact Hstore|]. split; [exact Hlang|exact Hvoice].
Defined.

End ServerFacts.
